(** * oav: example validation (SpecValidator) and live contract validation

    A shallow embedding of the [SpecValidator] class (the validation of
    x-ms-examples against a swagger operation) and of the live contract
    validator that the test-suite exercises.

    JavaScript objects used as dictionaries are finite maps with string keys,
    the completion of a call is either a value or a thrown exception, and the
    collaborators the class delegates to (ms-rest's request preparation, sway's
    request and response validation, [utils.mergeObjects]) are variables of
    the sections that use them. *)

From stdpp Require Import gmap strings list fin_maps.
From Stdlib Require Import ZArith.

Local Open Scope string_scope.
Local Open Scope Z_scope.
Local Open Scope list_scope.

(** ** JavaScript values and completions *)

Module Js.

(** The values an example (a JSON document) can supply, plus [undefined],
    which is what reading an absent property yields, and what a plain
    object inherits under a name of [Object.prototype] (a built-in
    function, the prototype itself under [__proto__]). *)
#[warnings="-register-all"] Inductive value : Type :=
  | VUndefined
  | VNull
  | VBool (b : bool)
  | VNum (n : Z)
  | VNaN
  | VStr (s : string)
  | VArr (items : list value)
  | VObj (fields : list (string * value))
  | VInherited (name : string).

(** ToBoolean: [undefined], [null], [false], [0], [NaN] and the empty string
    are falsy, everything else (every object and array included) is truthy. *)
Definition truthy (v : value) : bool :=
  match v with
  | VUndefined | VNull | VNaN => false
  | VBool b => b
  | VNum n => negb (n =? 0)
  | VStr s => match s with EmptyString => false | String _ _ => true end
  | VArr _ | VObj _ | VInherited _ => true
  end.

(** The property names every plain object inherits from
    [Object.prototype]. *)
Definition Object_prototype : list string :=
  ["constructor"; "__defineGetter__"; "__defineSetter__"; "hasOwnProperty";
   "__lookupGetter__"; "__lookupSetter__"; "isPrototypeOf";
   "propertyIsEnumerable"; "toString"; "valueOf"; "__proto__";
   "toLocaleString"].

(** [obj[key]] on a plain object (an object literal, or what [JSON.parse]
    gives), the map being its own properties: an own property wins, then
    comes what the object inherits from [Object.prototype], and
    [undefined] is what is left. *)
Definition get (obj : gmap string value) (key : string) : value :=
  match obj !! key with
  | Some v => v
  | None =>
      if bool_decide (key ∈ Object_prototype) then VInherited key
      else VUndefined
  end.

(** What a [throw] carries. [External] stands for whatever a collaborator
    outside the class throws. *)
Inductive exn : Type :=
  | ReferenceError (identifier : string)
  | TypeError (message : string)
  | Error (message : string)
  | External (message : string).

Inductive completion (A : Type) : Type :=
  | Return (a : A)
  | Throw (e : exn).
Arguments Return {A} a.
Arguments Throw {A} e.

#[export] Instance completion_ret : MRet completion := λ A a, Return a.

#[export] Instance completion_bind : MBind completion := λ A B k c,
  match c with
  | Return a => k a
  | Throw e => Throw e
  end.

(** [try { c } catch (err) { handler err }] *)
Definition try_catch {A} (c : completion A) (handler : exn -> completion A)
  : completion A :=
  match c with
  | Return a => Return a
  | Throw e => handler e
  end.

(** Reading an identifier: a name that no enclosing scope binds is an
    unresolvable reference, and reading it throws a ReferenceError. *)
Definition read_identifier (scope : list string) (identifier : string)
  : completion unit :=
  if bool_decide (identifier ∈ scope) then Return tt
  else Throw (ReferenceError identifier).

Definition returns {A} (c : completion A) : Prop := ∃ a, c = Return a.
Definition throws {A} (c : completion A) : Prop := ∃ e, c = Throw e.

End Js.

Export Js.

(** The double quote that the message templates embed. *)
Definition dq : string := String (Ascii.ascii_of_nat 34) EmptyString.

(** ** Strings

    The string operations the sources use. A string is a sequence of code
    units below 256, each standing for the code point of that number
    (ASCII and the Latin-1 supplement); text with other code points is
    outside the type. *)

Module Text.

(** The characters [String.prototype.trim] removes, white space and line
    terminators alike: below 256 these are tab, line feed, vertical tab,
    form feed, carriage return, space and the no-break space. *)
Definition is_whitespace (c : Ascii.ascii) : bool :=
  let n := Ascii.nat_of_ascii c in
  (Nat.leb 9 n && Nat.leb n 13) || Nat.eqb n 32 || Nat.eqb n 160.

Fixpoint trimStart (s : string) : string :=
  match s with
  | EmptyString => EmptyString
  | String c rest => if is_whitespace c then trimStart rest else s
  end.

Fixpoint trimEnd (s : string) : string :=
  match s with
  | EmptyString => EmptyString
  | String c rest =>
      match trimEnd rest with
      | EmptyString =>
          if is_whitespace c then EmptyString else String c EmptyString
      | String c' rest' => String c (String c' rest')
      end
  end.

(** [s.trim()] *)
Definition trim (s : string) : string := trimEnd (trimStart s).

(** [s.split(sep)] for a one-character separator: the pieces between the
    separators, a single empty piece for the empty string. *)
Fixpoint split (sep : Ascii.ascii) (s : string) : list string :=
  match s with
  | EmptyString => [EmptyString]
  | String c rest =>
      if Ascii.eqb c sep then EmptyString :: split sep rest
      else
        match split sep rest with
        | piece :: pieces => String c piece :: pieces
        | [] => [String c EmptyString]
        end
  end.

(** The separator of a list of operation ids. *)
Definition comma : Ascii.ascii := Ascii.ascii_of_nat 44.

(** The case folding of a regular expression with the [i] flag, for the
    ASCII patterns of the sources: an ASCII letter stands for both its
    cases, and no character outside ASCII folds to an ASCII one. *)
Definition lower (c : Ascii.ascii) : Ascii.ascii :=
  let n := Ascii.nat_of_ascii c in
  if Nat.leb 65 n && Nat.leb n 90 then Ascii.ascii_of_nat (n + 32) else c.

(** [pattern], compared letter by letter without regard to case, is what
    [s] starts with. *)
Fixpoint prefix_ci (pattern s : string) : bool :=
  match pattern, s with
  | EmptyString, _ => true
  | String p pattern', String c s' =>
      Ascii.eqb (lower p) (lower c) && prefix_ci pattern' s'
  | String _ _, EmptyString => false
  end.

(** [pattern] occurs in [s], without regard to case. *)
Fixpoint contains_ci (pattern s : string) : bool :=
  prefix_ci pattern s
  || match s with
     | EmptyString => false
     | String _ s' => contains_ci pattern s'
     end.

(** [s.substring(n)] *)
Fixpoint drop (n : nat) (s : string) : string :=
  match n, s with
  | O, _ => s
  | S n', String _ s' => drop n' s'
  | S _, EmptyString => EmptyString
  end.

(** The split of [s] at the last occurrence of [pattern] (without regard
    to case): what precedes the occurrence and what follows it. This is
    how a pattern between two greedy wildcards divides a line. *)
Fixpoint split_last_ci (pattern s : string) : option (string * string) :=
  match s with
  | EmptyString =>
      if prefix_ci pattern EmptyString then Some (EmptyString, EmptyString)
      else None
  | String c s' =>
      match split_last_ci pattern s' with
      | Some (before, after) => Some (String c before, after)
      | None =>
          if prefix_ci pattern s
          then Some (EmptyString, drop (String.length pattern) s)
          else None
      end
  end.

(** Line feed and carriage return, the line terminators below 256, which
    [.] does not match. *)
Definition is_line_terminator (c : Ascii.ascii) : bool :=
  let n := Ascii.nat_of_ascii c in Nat.eqb n 10 || Nat.eqb n 13.

(** The part of [s] before its first line terminator, and the rest. *)
Fixpoint first_line (s : string) : string * string :=
  match s with
  | EmptyString => (EmptyString, EmptyString)
  | String c rest =>
      if is_line_terminator c then (EmptyString, s)
      else
        match first_line rest with
        | (line, tail) => (String c line, tail)
        end
  end.

(** The string with its ASCII letters in lower case. *)
Fixpoint to_lower (s : string) : string :=
  match s with
  | EmptyString => EmptyString
  | String c rest => String (lower c) (to_lower rest)
  end.

(** Every character of the string is whitespace. *)
Fixpoint blank (s : string) : bool :=
  match s with
  | EmptyString => true
  | String c rest => is_whitespace c && blank rest
  end.

(** The string has no line terminator. *)
Fixpoint single_line (s : string) : bool :=
  match s with
  | EmptyString => true
  | String c rest => negb (is_line_terminator c) && single_line rest
  end.

End Text.

(** ** The example validator *)

Module SpecValidator.

(** The members of [Constants.ErrorCodes] that the class names;
    [Structural] stands for the codes of the errors that sway reports. *)
Inductive ErrorCode : Type :=
  | ResolveSpecError
  | SemanticValidationError
  | InternalError
  | XmsExampleNotFoundError
  | RequiredParameterExampleNotFound
  | ErrorInPreparingRequest
  | ResponseStatusCodeNotInSpec
  | ResponseSchemaNotInSpec
  | Structural (raw : string).

(** An error object: [{ code, message, innerErrors }]. *)
Record ErrorObject : Type := {
  code : ErrorCode;
  message : string;
  innerErrors : list exn
}.

(** Modelled from the spec: [constructErrorObject], which every method calls
    on [self] but whose body is not among the sources. Per the data model a
    validation error carries the code and the message it is built from; the
    inner errors, when given, are kept with it. *)
Definition constructErrorObject (c : ErrorCode) (msg : string)
    (inner : list exn) : ErrorObject :=
  {| code := c; message := msg; innerErrors := inner |}.

(** [{ errors: [...], warnings: [...] }] *)
Record ValidationResult : Type := {
  errors : list ErrorObject;
  warnings : list ErrorObject
}.

(** A declared parameter, as far as the class reads it. *)
Record ParameterObject : Type := {
  name : string;
  location : string;            (* parameter.in *)
  required : bool;
  xmsSkipUrlEncoding : bool     (* parameter['x-ms-skip-url-encoding'] *)
}.

(** A declared response: [schema] is [VUndefined] when none is declared. *)
Record Response : Type := {
  statusCode : string;
  schema : value
}.

Record ExampleResponse : Type := {
  ex_headers : option (gmap string value);   (* ['headers'], when truthy *)
  ex_body : value                            (* ['body'] *)
}.

Record XmsExample : Type := {
  ex_parameters : gmap string value;
  ex_responses : list (string * ExampleResponse)
}.

Record Operation : Type := {
  operationId : string;
  method : string;
  pathObject_path : string;
  getParameters : list ParameterObject;
  getResponses : list Response;
  produces : list string;
  xmsExamples : option (list (string * XmsExample))
}.

(** A path or query parameter is passed either as the bare value or as
    [{ value: v, skipUrlEncoding: true }]. *)
Inductive ParamValue : Type :=
  | Plain (v : value)
  | SkipUrlEncoding (v : value).

(** The options object handed to [HttpRequest.prepare]. An absent property
    is [None]. *)
Record Options : Type := {
  o_method : string;
  o_pathTemplate : string;
  o_pathParameters : option (gmap string ParamValue);
  o_queryParameters : option (gmap string ParamValue);
  o_body : option value;
  o_disableJsonStringifyOnBody : bool;
  o_headers : option (gmap string value)
}.

Definition initial_options (operation : Operation) : Options :=
  {| o_method := method operation;
     o_pathTemplate := pathObject_path operation;
     o_pathParameters := None;
     o_queryParameters := None;
     o_body := None;
     o_disableJsonStringifyOnBody := false;
     o_headers := None |}.

(** The body of the parameter loop after the falsy test: file the value
    under the property its location selects. *)
Definition assign_parameter (parameter : ParameterObject) (v : value)
    (options : Options) : Options :=
  let entry :=
    if xmsSkipUrlEncoding parameter then SkipUrlEncoding v else Plain v in
  if bool_decide (location parameter = "path") then
    {| o_method := o_method options;
       o_pathTemplate := o_pathTemplate options;
       o_pathParameters :=
         Some (<[name parameter := entry]> (default ∅ (o_pathParameters options)));
       o_queryParameters := o_queryParameters options;
       o_body := o_body options;
       o_disableJsonStringifyOnBody := o_disableJsonStringifyOnBody options;
       o_headers := o_headers options |}
  else if bool_decide (location parameter = "query") then
    {| o_method := o_method options;
       o_pathTemplate := o_pathTemplate options;
       o_pathParameters := o_pathParameters options;
       o_queryParameters :=
         Some (<[name parameter := entry]> (default ∅ (o_queryParameters options)));
       o_body := o_body options;
       o_disableJsonStringifyOnBody := o_disableJsonStringifyOnBody options;
       o_headers := o_headers options |}
  else if bool_decide (location parameter = "body") then
    {| o_method := o_method options;
       o_pathTemplate := o_pathTemplate options;
       o_pathParameters := o_pathParameters options;
       o_queryParameters := o_queryParameters options;
       o_body := Some v;
       o_disableJsonStringifyOnBody := true;
       o_headers := o_headers options |}
  else if bool_decide (location parameter = "header") then
    {| o_method := o_method options;
       o_pathTemplate := o_pathTemplate options;
       o_pathParameters := o_pathParameters options;
       o_queryParameters := o_queryParameters options;
       o_body := o_body options;
       o_disableJsonStringifyOnBody := o_disableJsonStringifyOnBody options;
       o_headers := Some (<[name parameter := v]> (default ∅ (o_headers options))) |}
  else options.

Definition missing_parameter_message (operation : Operation)
    (parameter : ParameterObject) : string :=
  "In operation " +:+ dq +:+ operationId operation +:+ dq +:+ ", parameter "
  +:+ name parameter
  +:+ " is required in the swagger spec but is not present in the provided example parameter values.".

(** The state the parameter loop of [validateRequest] updates:
    [options], [result.validationResult.errors] and [foundIssues]. *)
Record LoopState : Type := {
  ls_options : Options;
  ls_errors : list ErrorObject;
  ls_foundIssues : bool
}.

(** [for (let i = 0; i < parameters.length; i++) { ... }] of
    [validateRequest]: [break] ends the recursion, [continue] goes on with
    the state unchanged. *)
Fixpoint parameter_loop (operation : Operation)
    (exampleParameterValues : gmap string value)
    (parameters : list ParameterObject) (st : LoopState) : LoopState :=
  match parameters with
  | [] => st
  | parameter :: rest =>
      if negb (truthy (get exampleParameterValues (name parameter))) then
        if required parameter then
          let msg := missing_parameter_message operation parameter in
          let e := constructErrorObject RequiredParameterExampleNotFound msg [] in
          {| ls_options := ls_options st;
             ls_errors := ls_errors st ++ [e];
             ls_foundIssues := true |}
        else parameter_loop operation exampleParameterValues rest st
      else
        parameter_loop operation exampleParameterValues rest
          {| ls_options :=
               assign_parameter parameter
                 (get exampleParameterValues (name parameter)) (ls_options st);
             ls_errors := ls_errors st;
             ls_foundIssues := ls_foundIssues st |}
  end.

(** The state on entry to the loop: [options] with the method and the
    path template, no errors, [foundIssues = false]. *)
Definition initial_state (operation : Operation) : LoopState :=
  {| ls_options := initial_options operation;
     ls_errors := [];
     ls_foundIssues := false |}.

(** The names bound where the [catch] block of [validateRequest] runs: the
    catch parameter, the locals and arguments of the method, and the
    module-level bindings of the file. *)
Definition module_scope : list string :=
  ["util"; "path"; "Sway"; "msRest"; "HttpRequest"; "SpecResolver";
   "SpecValidationResult"; "utils"; "Constants"; "log"; "ResponseWrapper";
   "ErrorCodes"; "SpecValidator"].

Definition validateRequest_catch_scope : list string :=
  ["err"; "e"; "request"; "validationResult"; "self"; "operation";
   "exampleParameterValues"; "parameters"; "result"; "foundIssues"; "options"]
  ++ module_scope.

Section validateRequest.

(** ms-rest's [WebResource], sway's [operation.validateRequest] and
    [utils.mergeObjects(source, target)] live outside the class. The local
    [validationResult] starts as [{}] ([None] here) and becomes sway's
    result when the call returns. *)
Variable HttpRequest : Type.
Variable prepare : Options → completion HttpRequest.
Variable operation_validateRequest :
  Operation → HttpRequest → completion ValidationResult.
Variable mergeObjects :
  option ValidationResult → ValidationResult → ValidationResult.

Record RequestResult : Type := {
  request : option HttpRequest;
  validationResult : ValidationResult
}.

(** [validationResult.errors.push(e)]: on [{}] the property read gives
    [undefined], and calling [push] on it throws. *)
Definition push_error (validationResult : option ValidationResult)
    (e : ErrorObject) : completion (option ValidationResult) :=
  match validationResult with
  | None => Throw (TypeError "Cannot read properties of undefined (reading 'push')")
  | Some vr =>
      Return (Some {| errors := errors vr ++ [e]; warnings := warnings vr |})
  end.

(** The [catch (err)] block. It reads [error.message], not [err.message];
    no [error] is bound, so nothing after that read is ever evaluated and
    the message of the error object is left empty here. *)
Definition validateRequest_catch (err : exn)
    (validationResult : option ValidationResult)
  : completion (option HttpRequest * option ValidationResult) :=
  _ ← read_identifier validateRequest_catch_scope "error";
  let e := constructErrorObject ErrorInPreparingRequest EmptyString [err] in
  validationResult' ← push_error validationResult e;
  Return (None, validationResult').

Definition validateRequest (operation : Operation)
    (exampleParameterValues : gmap string value)
  : completion RequestResult :=
  let st :=
    parameter_loop operation exampleParameterValues (getParameters operation)
      (initial_state operation) in
  let result_validationResult :=
    {| errors := ls_errors st; warnings := [] |} in
  checked ←
    (if negb (ls_foundIssues st) then
       try_catch
         (request ← prepare (ls_options st);
          validationResult ← operation_validateRequest operation request;
          Return (Some request, Some validationResult))
         (λ err, validateRequest_catch err None)
     else Return (None, None));
  Return {| request := checked.1;
            validationResult :=
              mergeObjects checked.2 result_validationResult |}.

End validateRequest.

Arguments request {HttpRequest} _.
Arguments validationResult {HttpRequest} _.

(** [new ResponseWrapper(statusCode, body, headers)] *)
Record ResponseWrapper : Type := {
  rw_statusCode : string;
  rw_body : value;
  rw_headers : gmap string value
}.

(** sway's [operation.getResponse(statusCode)]: the declared response whose
    status code is the given one, [undefined] when there is none. *)
Definition getResponse (operation : Operation) (statusCode' : string)
  : option Response :=
  List.find (λ response, bool_decide (statusCode response = statusCode'))
    (getResponses operation).

(** [operation.produces[0]] *)
Definition produces_0 (operation : Operation) : value :=
  match produces operation with
  | [] => VUndefined
  | mimeType :: _ => VStr mimeType
  end.

Definition status_code_not_in_spec_message (operation : Operation)
    (exampleResponseStatusCode : string) : string :=
  "Response statusCode " +:+ dq +:+ exampleResponseStatusCode +:+ dq
  +:+ " for operation " +:+ dq +:+ operationId operation +:+ dq
  +:+ " is provided in exampleResponseValue, "
  +:+ "however it is not present in the swagger spec.".

Definition schema_not_in_spec_message (operation : Operation)
    (exampleResponseStatusCode : string) : string :=
  "Response statusCode " +:+ dq +:+ exampleResponseStatusCode +:+ dq
  +:+ " for operation " +:+ dq +:+ operationId operation +:+ dq
  +:+ " has response body provided in the example, "
  +:+ "however the response does not have a " +:+ dq +:+ "schema" +:+ dq
  +:+ " defined in the swagger spec.".

(** [if (!(headers['content-type'] || headers['Content-Type']))
       headers['content-type'] = operation.produces[0]] *)
Definition ensure_content_type (operation : Operation)
    (exampleResponseHeaders : gmap string value) : gmap string value :=
  if negb (truthy (get exampleResponseHeaders "content-type")
           || truthy (get exampleResponseHeaders "Content-Type"))
  then <["content-type" := produces_0 operation]> exampleResponseHeaders
  else exampleResponseHeaders.

Section validateXmsExampleResponses.

(** sway's [operation.validateResponse], the structural validator. *)
Variable operation_validateResponse :
  Operation → ResponseWrapper → ValidationResult.

(** [validateResponse(operationOrResponse, responseWrapper)]: the argument
    checks cannot fail on typed arguments, what is left is the delegation. *)
Definition validateResponse (operationOrResponse : Operation)
    (responseWrapper : ResponseWrapper) : ValidationResult :=
  operation_validateResponse operationOrResponse responseWrapper.

(** One turn of the loop over the example's status codes: the value that
    [result[exampleResponseStatusCode]] holds when the turn ends. *)
Definition validate_example_response (operation : Operation)
    (exampleResponseStatusCode : string) (example : ExampleResponse)
  : ValidationResult :=
  match getResponse operation exampleResponseStatusCode with
  | None =>
      let msg :=
        status_code_not_in_spec_message operation exampleResponseStatusCode in
      let e := constructErrorObject ResponseStatusCodeNotInSpec msg [] in
      {| errors := [] ++ [e]; warnings := [] |}
  | Some response =>
      let exampleResponseHeaders := default ∅ (ex_headers example) in
      let exampleResponseBody := ex_body example in
      if truthy exampleResponseBody && negb (truthy (schema response)) then
        let msg :=
          schema_not_in_spec_message operation exampleResponseStatusCode in
        let e := constructErrorObject ResponseSchemaNotInSpec msg [] in
        {| errors := [] ++ [e]; warnings := [] |}
      else
        let exampleResponse :=
          {| rw_statusCode := exampleResponseStatusCode;
             rw_body := exampleResponseBody;
             rw_headers :=
               ensure_content_type operation exampleResponseHeaders |} in
        validateResponse operation exampleResponse
  end.

(** [for (let exampleResponseStatusCode in exampleResponseValue)]: the
    entries in enumeration order, [result] threaded through. *)
Fixpoint example_responses_loop (operation : Operation)
    (entries : list (string * ExampleResponse))
    (result : gmap string ValidationResult) : gmap string ValidationResult :=
  match entries with
  | [] => result
  | (exampleResponseStatusCode, example) :: rest =>
      example_responses_loop operation rest
        (<[exampleResponseStatusCode :=
             validate_example_response operation exampleResponseStatusCode
               example]> result)
  end.

(** The loop is the whole computation of the result: [responsesInSwagger]
    and the message built from it afterwards never reach [result]. *)
Definition validateXmsExampleResponses (operation : Operation)
    (exampleResponseValue : list (string * ExampleResponse))
  : gmap string ValidationResult :=
  example_responses_loop operation exampleResponseValue ∅.

End validateXmsExampleResponses.

(** The instance state the methods below read: [this.swaggerApi] with the
    operations sway's [getOperations()] lists, [null] before [initialize]. *)
Record Instance : Type := {
  specPath : string;
  swaggerApi : option (list Operation)
}.

Definition getOperationById (self : Instance) (id : string)
  : completion (option Operation) :=
  match swaggerApi self with
  | None => Throw (External "constructInitializationError('getOperationById')")
  | Some operations =>
      if negb (truthy (VStr id)) then
        Throw (Error "id cannot be null or undefined and must be of type string.")
      else
        Return (List.find (λ item, bool_decide (operationId item = id)) operations)
  end.

(** [@param {string|object} idOrObj], with the two absent values. *)
Inductive IdOrObj : Type :=
  | ArgUndefined
  | ArgNull
  | ArgId (id : string)
  | ArgObj (operation : Operation).

Definition arg_truthy (idOrObj : IdOrObj) : bool :=
  match idOrObj with
  | ArgUndefined | ArgNull => false
  | ArgId id => truthy (VStr id)
  | ArgObj _ => true
  end.

(** [getXmsExamples] declares no [self] and has no binding called [id]: its
    scope is its argument, its two locals and the module-level bindings. *)
Definition getXmsExamples_scope : list string :=
  ["idOrObj"; "operation"; "result"] ++ module_scope.

Definition getXmsExamples (this : Instance) (idOrObj : IdOrObj)
  : completion (option (list (string * XmsExample))) :=
  if negb (arg_truthy idOrObj) then
    Throw (Error "idOrObj cannot be null or undefined and must be of type string or object.")
  else
    operation ←
      match idOrObj with
      | ArgId id =>
          (* operation = self.getOperationById(id) *)
          _ ← read_identifier getXmsExamples_scope "self";
          _ ← read_identifier getXmsExamples_scope "id";
          getOperationById this id
      | ArgObj operation => Return (Some operation)
      | ArgUndefined | ArgNull =>
          Throw (TypeError "Cannot read properties of undefined (reading 'valueOf')")
      end;
    Return (operation ≫= xmsExamples).

(** *** The rest of the class *)

(** [specPath.replace(re, 'https://raw.githubusercontent.com$2$3')] with
    [re] the class's pattern for a github blob url, flags [i] and [g]: the
    pattern is anchored at the start and its wildcards stay on one line,
    so at most the first line is rewritten; the second group is what lies
    between [github.com] ([.] being any character) and the last [blob/],
    the third what follows it. Without a match the string is returned as
    it is. *)
Definition replace_github_blob (specPath : string) : string :=
  match Text.first_line specPath with
  | (line, tail) =>
      if Text.prefix_ci "https://github" line then
        match Text.drop 14 line with
        | String _ after_dot =>
            if Text.prefix_ci "com" after_dot then
              match Text.split_last_ci "blob/" (Text.drop 3 after_dot) with
              | Some (group2, group3) =>
                  "https://raw.githubusercontent.com" +:+ group2 +:+ group3
                  +:+ tail
              | None => specPath
              end
            else specPath
        | EmptyString => specPath
        end
      else specPath
  end.

(** The constructor, as far as [Instance] records what it sets: [None] is
    a [null] or [undefined] path; [swaggerApi] starts as [null]. *)
Definition new_SpecValidator (specPath' : option string) : completion Instance :=
  match specPath' with
  | None =>
      Throw (Error "specPath is a required parameter of type string and it cannot be an empty string.")
  | Some path =>
      if Nat.eqb (String.length (Text.trim path)) 0 then
        Throw (Error "specPath is a required parameter of type string and it cannot be an empty string.")
      else
        let path' :=
          if String.prefix "https://github" path then replace_github_blob path
          else path in
        Return {| specPath := path'; swaggerApi := None |}
  end.

(** The operations [validateOperations(operationIds)] goes on to validate:
    its guard and its selection, up to the loop over them. [None] is an
    absent [operationIds]. [operationIdsObj] is a plain object holding 1
    under each trimmed item, and [Boolean(operationIdsObj[id])] reads it
    as any property read does, inherited names included. *)
Definition validateOperations_operations (self : Instance)
    (operationIds : option string) : completion (list Operation) :=
  match swaggerApi self with
  | None => Throw (External "constructInitializationError('validateOperations')")
  | Some operations =>
      match operationIds with
      | Some ids =>
          if truthy (VStr ids) then
            let operationIdsObj : gmap string value :=
              list_to_map
                ((λ item, (Text.trim item, VNum 1))
                   <$> Text.split Text.comma (Text.trim ids)) in
            let operationsToValidate :=
              List.filter
                (λ item, truthy (get operationIdsObj (operationId item)))
                operations in
            Return
              (if negb (Nat.eqb (length operationsToValidate) 0)
               then operationsToValidate else operations)
          else Return operations
      | None => Return operations
      end
  end.

Definition example_not_found_message (operation : Operation) : string :=
  "x-ms-example not found in " +:+ operationId operation +:+ ".".

Section validateXmsExamples.

Variable HttpRequest : Type.
Variable prepare : Options → completion HttpRequest.
Variable operation_validateRequest :
  Operation → HttpRequest → completion ValidationResult.
Variable mergeObjects :
  option ValidationResult → ValidationResult → ValidationResult.
Variable operation_validateResponse :
  Operation → ResponseWrapper → ValidationResult.

(** [resultScenarios[scenario]] *)
Record ScenarioResult : Type := {
  requestValidation : RequestResult HttpRequest;
  responseValidation : gmap string ValidationResult
}.

(** The local [result] of [validateXmsExamples]. *)
Record XmsExamplesResult : Type := {
  scenarios : gmap string ScenarioResult;
  exampleNotFound : option ErrorObject
}.

(** [for (let scenario in xmsExamples)]: the request of the scenario is
    validated first, then its responses; an exception ends the loop. *)
Fixpoint scenarios_loop (operation : Operation)
    (xmsExamples' : list (string * XmsExample))
    (resultScenarios : gmap string ScenarioResult)
  : completion (gmap string ScenarioResult) :=
  match xmsExamples' with
  | [] => Return resultScenarios
  | (scenario, xmsExample) :: rest =>
      requestValidation' ←
        validateRequest HttpRequest prepare operation_validateRequest
          mergeObjects operation (ex_parameters xmsExample);
      let responseValidation' :=
        validateXmsExampleResponses operation_validateResponse operation
          (ex_responses xmsExample) in
      scenarios_loop operation rest
        (<[scenario := {| requestValidation := requestValidation';
                          responseValidation := responseValidation' |}]>
           resultScenarios)
  end.

(** [validateXmsExamples(operation)] returns nothing: what it computes is
    the [result] that it hands to [constructOperationResult], which is not
    among the sources and is taken to return. That [result] is the value
    here. *)
Definition validateXmsExamples (operation : Operation)
  : completion XmsExamplesResult :=
  match xmsExamples operation with
  | Some xmsExamples' =>
      resultScenarios ← scenarios_loop operation xmsExamples' ∅;
      Return {| scenarios := resultScenarios; exampleNotFound := None |}
  | None =>
      let msg := example_not_found_message operation in
      Return {| scenarios := ∅;
                exampleNotFound :=
                  Some (constructErrorObject XmsExampleNotFoundError msg []) |}
  end.

End validateXmsExamples.

Arguments requestValidation {HttpRequest} _.
Arguments responseValidation {HttpRequest} _.
Arguments scenarios {HttpRequest} _.
Arguments exampleNotFound {HttpRequest} _.

Section validateExampleResponses.

Variable operation_validateResponse :
  Operation → ResponseWrapper → ValidationResult.

(** [response.examples], a property of the response object that the
    record above leaves out: the example bodies by mime type, in
    enumeration order, [None] when the response has none. *)
Variable response_examples : Response → option (list (string * value)).

(** [for (let mimeType in response.examples)] *)
Fixpoint mime_types_loop (operation : Operation) (response : Response)
    (examples : list (string * value))
    (result : gmap string ValidationResult) : gmap string ValidationResult :=
  match examples with
  | [] => result
  | (mimeType, exampleResponseBody) :: rest =>
      let exampleResponse :=
        {| rw_statusCode := statusCode response;
           rw_body := exampleResponseBody;
           rw_headers := {[ "content-type" := VStr mimeType ]} |} in
      mime_types_loop operation response rest
        (<[statusCode response :=
             validateResponse operation_validateResponse operation
               exampleResponse]> result)
  end.

(** [for (let i = 0; i < responses.length; i++)] *)
Fixpoint responses_loop (operation : Operation) (responses : list Response)
    (result : gmap string ValidationResult) : gmap string ValidationResult :=
  match responses with
  | [] => result
  | response :: rest =>
      responses_loop operation rest
        (match response_examples response with
         | Some examples => mime_types_loop operation response examples result
         | None => result
         end)
  end.

Definition validateExampleResponses (operation : Operation)
  : gmap string ValidationResult :=
  responses_loop operation (getResponses operation) ∅.

End validateExampleResponses.

Definition operation_guard_message : string :=
  "operation cannot be null or undefined and must be of type 'object'.".

Definition exampleParameterValues_guard_message (operation : Operation)
  : string :=
  "In operation " +:+ dq +:+ operationId operation +:+ dq
  +:+ ", exampleParameterValues cannot be null or undefined and must be of type "
  +:+ dq +:+ "object" +:+ dq
  +:+ " (A dictionary of key-value pairs of parameter-names and their values).".

Section validateRequest_entry.

Variable HttpRequest : Type.
Variable prepare : Options → completion HttpRequest.
Variable operation_validateRequest :
  Operation → HttpRequest → completion ValidationResult.
Variable mergeObjects :
  option ValidationResult → ValidationResult → ValidationResult.

(** [validateRequest(operation, exampleParameterValues)] from its first
    line, for arguments of any kind: [None] is an argument that is [null],
    [undefined] or not an object, which the two guards answer with an
    Error; objects go on to the body of the method. *)
Definition validateRequest_entry (operation : option Operation)
    (exampleParameterValues : option (gmap string value))
  : completion (RequestResult HttpRequest) :=
  match operation with
  | None => Throw (Error operation_guard_message)
  | Some operation' =>
      match exampleParameterValues with
      | None => Throw (Error (exampleParameterValues_guard_message operation'))
      | Some exampleParameterValues' =>
          validateRequest HttpRequest prepare operation_validateRequest
            mergeObjects operation' exampleParameterValues'
      end
  end.

End validateRequest_entry.

End SpecValidator.

(** ** The commands *)

Module Commands.

(** The function of [validate] that a command ends up calling, with its
    arguments. *)
Inductive ValidateCall : Type :=
  | validateExamplesInCompositeSpec (specPath : string)
  | liveTest (specPath : string) (operationIds : option string)
  | validateCompositeSpec (specPath : string)
  | validateSpec (specPath : string)
  | validateExamples (specPath : string) (operationIds : option string).

(** [specPath.match(re) !== null] with [re] the pattern for the word
    composite between two wildcards, flags [i] and [g]: there is a match
    exactly when the word occurs somewhere, in any letter case. *)
Definition is_composite (specPath : string) : bool :=
  Text.contains_ci "composite" specPath.

(** [exports.handler] of [live-test <spec-path>] *)
Definition live_test_handler (specPath : string)
    (operationIds : option string) : ValidateCall :=
  if is_composite specPath then validateExamplesInCompositeSpec specPath
  else liveTest specPath operationIds.

(** [exports.handler] of [validate-spec <spec-path>] *)
Definition validate_spec_handler (specPath : string) : ValidateCall :=
  if is_composite specPath then validateCompositeSpec specPath
  else validateSpec specPath.

(** [exports.handler] of [validate-example <spec-path>] *)
Definition validate_example_handler (specPath : string)
    (operationIds : option string) : ValidateCall :=
  if is_composite specPath then validateExamplesInCompositeSpec specPath
  else validateExamples specPath operationIds.

End Commands.

(** ** The live contract validator

    [lib/validators/liveValidator] is exercised by the test-suite but is not
    among the sources; its behaviour is taken from the specification. *)

Module LiveValidator.

(** Modelled from the spec: the error taxonomy of the live validator (the
    [Constants.ErrorCodes] members the tests compare against). *)
Inductive ErrorCode : Type :=
  | OperationNotFoundInCacheWithProvider
  | OperationNotFoundInCacheWithApi
  | OperationNotFoundInCacheWithVerb
  | OperationNotFoundInCache
  | MISSING_REQUIRED_PARAMETER
  | ErrorInPreparingRequest
  | INVALID_TYPE
  | INVALID_FORMAT
  | ENUM_MISMATCH
  | ENUM_CASE_MISMATCH
  | OBJECT_MISSING_REQUIRED_PROPERTY
  | OBJECT_ADDITIONAL_PROPERTIES
  | MAX_LENGTH
  | BOUND_VIOLATION (raw : string)
  | INVALID_RESPONSE_CODE
  | ResponseSchemaNotInSpec
  | ResponseStatusCodeNotInSpec.

#[export] Instance ErrorCode_eq_dec : EqDecision ErrorCode.
Proof. solve_decision. Defined.

(** Modelled from the spec: the severity of a ValidationError. *)
Inductive Severity : Type := SevError | SevWarning.

(** Modelled from the spec: ValidationError and ValidationResult of the data
    model of the live validator. *)
Record ValidationError : Type := {
  code : ErrorCode;
  message : string;
  path : list string;
  severity : Severity
}.

(** Modelled from the spec: a ValidationResult is an ordered sequence of
    errors and one of warnings. *)
Record ValidationResult : Type := {
  errors : list ValidationError;
  warnings : list ValidationError
}.

(** Modelled from the spec: a path template is an ordered sequence of literal
    and [{parameterName}] segments. *)
Inductive Segment : Type :=
  | Literal (text : string)
  | Placeholder (parameterName : string).

(** Modelled from the spec: the location of a Parameter. *)
Inductive ParameterLocation : Type := InPath | InQuery | InHeader | InBody.

(** Modelled from the spec: lower-casing (of verbs, provider namespaces and,
    under the default case policy, literal segments), on ASCII letters. *)
Definition lower_ascii (c : Ascii.ascii) : Ascii.ascii :=
  let n := Ascii.nat_of_ascii c in
  if (Nat.leb 65 n && Nat.leb n 90)%bool then Ascii.ascii_of_nat (n + 32) else c.

(** Modelled from the spec: lower-casing of a string, letter by letter. *)
Fixpoint toLowerCase (s : string) : string :=
  match s with
  | EmptyString => EmptyString
  | String c rest => String (lower_ascii c) (toLowerCase rest)
  end.

(** Modelled from the spec: the two reserved sentinel keys of the cache, the
    unknown-provider and the unknown-api-version bucket, with the values the
    test-suite notes for [Constants.unknownResourceProvider] and
    [Constants.unknownApiVersion]. *)
Definition unknownResourceProvider : string := "microsoft.unknown".
Definition unknownApiVersion : string := "unknown-api-version".

Section Live.

(** Modelled from the spec: the structural schema validator and the
    translation of its raw vocabulary into the taxonomy are external
    collaborators. *)
Variable Schema : Type.
Variable RawError : Type.
Variable validateAgainstSchema : Schema → value → list RawError.
Variable translate : RawError → ValidationError.

(** Modelled from the spec: a Parameter of the data model (name, location,
    required, schema, skipUrlEncoding). *)
Record ParameterSpec : Type := {
  p_name : string;
  p_location : ParameterLocation;
  p_required : bool;
  p_schema : Schema;
  p_skipUrlEncoding : bool
}.

(** Modelled from the spec: a ResponseSpec (optional schema, declared
    headers by name); its status code is its key in [responses]. *)
Record ResponseSpec : Type := {
  rs_schema : option Schema;
  rs_headers : list (string * Schema)
}.

(** Modelled from the spec: an Operation of the data model; [responses] maps
    a status code string or the literal [default] to a ResponseSpec. *)
Record Operation : Type := {
  operationId : string;
  httpVerb : string;
  pathTemplate : list Segment;
  parameters : list ParameterSpec;
  responses : gmap string ResponseSpec;
  producesContentTypes : list string
}.

(** Modelled from the spec: the request URL, as path segments and query
    parameters (the text-level parsing is the URL library's). *)
Record Url : Type := {
  u_segments : list string;
  u_query : gmap string string
}.

(** Modelled from the spec: LiveRequest; the query parameters are those of
    its url, header names are compared without regard to case. *)
Record LiveRequest : Type := {
  lr_url : Url;
  lr_method : string;
  lr_headers : list (string * string);
  lr_body : option value
}.

(** Modelled from the spec: LiveResponse, its status code as a string. *)
Record LiveResponse : Type := {
  ls_statusCode : string;
  ls_headers : list (string * string);
  ls_body : option value
}.

(** Modelled from the spec: the request context (url, method) that
    response validation is given to find the operation. *)
Record RequestContext : Type := {
  rc_url : Url;
  rc_method : string
}.

(** Modelled from the spec: the provider namespace is the segment that
    follows a [providers] segment, lower-cased; without one the unknown
    provider bucket is used. *)
Fixpoint getProvider (segments : list string) : string :=
  match segments with
  | [] => unknownResourceProvider
  | segment :: rest =>
      match rest with
      | next :: _ =>
          if bool_decide (segment = "providers") then toLowerCase next
          else getProvider rest
      | [] => unknownResourceProvider
      end
  end.

(** Modelled from the spec: the [api-version] query parameter of the url,
    the unknown-api-version key without one. *)
Definition getApiVersion (url : Url) : string :=
  default unknownApiVersion (u_query url !! "api-version").

(** Modelled from the spec: a literal segment matches under the case
    policy, a placeholder matches any single non-empty segment, and the
    segment counts must agree. *)
Definition segment_matches (isPathCaseSensitive : bool) (t : Segment)
    (s : string) : bool :=
  match t with
  | Literal text =>
      if isPathCaseSensitive then bool_decide (text = s)
      else bool_decide (toLowerCase text = toLowerCase s)
  | Placeholder _ => negb (bool_decide (s = EmptyString))
  end.

(** Modelled from the spec: segment-by-segment comparison of a path
    template with the request path, the segment counts agreeing. *)
Fixpoint template_matches (isPathCaseSensitive : bool)
    (template : list Segment) (segments : list string) : bool :=
  match template, segments with
  | [], [] => true
  | t :: template', s :: segments' =>
      segment_matches isPathCaseSensitive t s
      && template_matches isPathCaseSensitive template' segments'
  | _, _ => false
  end.

(** Modelled from the spec: what the matcher returns, the operations and
    the reason of a failed match. *)
Record MatchResult : Type := {
  operations : list Operation;
  reason : option ErrorCode
}.

(** Modelled from the spec: the operation matcher (steps 1 to 8 of the
    matching algorithm) over the three-level cache. *)
Definition getPotentialOperations (isPathCaseSensitive : bool)
    (cache : gmap string (gmap string (gmap string (list Operation))))
    (url : Url) (verb : string) : MatchResult :=
  let apiVersion := getApiVersion url in
  let verb' := toLowerCase verb in
  let provider := getProvider (u_segments url) in
  match cache !! provider with
  | None =>
      {| operations := [];
         reason := Some OperationNotFoundInCacheWithProvider |}
  | Some apis =>
      match apis !! apiVersion with
      | None =>
          {| operations := [];
             reason := Some OperationNotFoundInCacheWithApi |}
      | Some verbs =>
          match verbs !! verb' with
          | None | Some [] =>
              {| operations := [];
                 reason := Some OperationNotFoundInCacheWithVerb |}
          | Some candidates =>
              match
                List.filter
                  (λ operation,
                     template_matches isPathCaseSensitive
                       (pathTemplate operation) (u_segments url))
                  candidates
              with
              | [] =>
                  {| operations := [];
                     reason := Some OperationNotFoundInCache |}
              | matched => {| operations := matched; reason := None |}
              end
          end
      end
  end.

(** Modelled from the spec: lookup in a header mapping, the names compared
    without regard to case. *)
Definition header (headers : list (string * string)) (name : string)
  : option string :=
  snd <$> List.find
    (λ entry, bool_decide (toLowerCase entry.1 = toLowerCase name)) headers.

(** Modelled from the spec: the structural check of a value against a
    schema, every raw mismatch translated into the taxonomy. *)
Definition structural_errors (schema : Schema) (v : value)
  : list ValidationError :=
  translate <$> validateAgainstSchema schema v.

(** *** Request validation *)

(** Modelled from the spec: URL decoding, which a parameter marked
    skipUrlEncoding is spared. *)
Variable urlDecode : string → string.

(** Modelled from the spec: the value of a path parameter is the request
    segment at the position of its placeholder in the template. *)
Fixpoint path_value (template : list Segment) (segments : list string)
    (name : string) : option string :=
  match template, segments with
  | Placeholder parameterName :: template', s :: segments' =>
      if bool_decide (parameterName = name) then Some s
      else path_value template' segments' name
  | Literal _ :: template', _ :: segments' =>
      path_value template' segments' name
  | _, _ => None
  end.

(** Modelled from the spec: where the value of a declared parameter is
    found in the live request (path segment by position, query map, header
    map or body). *)
Definition locate (operation : Operation) (liveRequest : LiveRequest)
    (parameter : ParameterSpec) : option value :=
  let decoded (raw : string) :=
    VStr (if p_skipUrlEncoding parameter then raw else urlDecode raw) in
  match p_location parameter with
  | InPath =>
      decoded <$> path_value (pathTemplate operation)
                    (u_segments (lr_url liveRequest)) (p_name parameter)
  | InQuery => decoded <$> u_query (lr_url liveRequest) !! p_name parameter
  | InHeader => VStr <$> header (lr_headers liveRequest) (p_name parameter)
  | InBody => lr_body liveRequest
  end.

(** Modelled from the spec: the error for a required parameter without a
    value. *)
Definition missing_required_parameter (parameter : ParameterSpec)
  : ValidationError :=
  {| code := MISSING_REQUIRED_PARAMETER;
     message := p_name parameter;
     path := [p_name parameter];
     severity := SevError |}.

(** Modelled from the spec: one declared parameter of the request: missing
    and required is an error, present is checked against its schema. *)
Definition validate_parameter (operation : Operation)
    (liveRequest : LiveRequest) (parameter : ParameterSpec)
  : list ValidationError :=
  match locate operation liveRequest parameter with
  | None =>
      if p_required parameter then [missing_required_parameter parameter]
      else []
  | Some v => structural_errors (p_schema parameter) v
  end.

(** Modelled from the spec: the request validator,
    [validateRequest(operation, liveRequest)]. *)
Definition validateRequest (operation : Operation)
    (liveRequest : LiveRequest) : ValidationResult :=
  {| errors :=
       concat (validate_parameter operation liveRequest <$> parameters operation);
     warnings := [] |}.

(** *** Response validation *)

(** Modelled from the spec: the value of a decimal digit, for reading a
    status code numerically. *)
Definition digit_value (c : Ascii.ascii) : option N :=
  let n := Ascii.N_of_ascii c in
  if ((48 <=? n) && (n <=? 57))%N then Some (n - 48)%N else None.

(** Modelled from the spec: the numeral read from left to right. *)
Fixpoint status_number_from (acc : N) (s : string) : option N :=
  match s with
  | EmptyString => Some acc
  | String c rest =>
      match digit_value c with
      | Some d => status_number_from (10 * acc + d)%N rest
      | None => None
      end
  end.

(** Modelled from the spec: the number a status code string denotes, when
    it is a numeral. *)
Definition status_number (statusCode : string) : option N :=
  match statusCode with
  | EmptyString => None
  | _ => status_number_from 0%N statusCode
  end.

(** Modelled from the spec: the status code is numerically at least 400. *)
Definition is_error_range (statusCode : string) : bool :=
  match status_number statusCode with
  | Some n => (400 <=? n)%N
  | None => false
  end.

(** Modelled from the spec: status-code resolution of the response
    validator. A declared status code selects its ResponseSpec; an
    undeclared one selects the [default] ResponseSpec when there is one and
    the code is numerically at least 400; otherwise nothing is selected. *)
Definition resolve_response (operation : Operation) (statusCode : string)
  : option ResponseSpec :=
  match responses operation !! statusCode with
  | Some spec => Some spec
  | None =>
      match responses operation !! "default" with
      | Some spec => if is_error_range statusCode then Some spec else None
      | None => None
      end
  end.

(** Modelled from the spec: without a content-type header the first
    produced content type of the operation is assumed. *)
Definition effective_headers (operation : Operation)
    (liveResponse : LiveResponse) : list (string * string) :=
  match header (ls_headers liveResponse) "content-type" with
  | Some _ => ls_headers liveResponse
  | None =>
      match producesContentTypes operation with
      | contentType :: _ =>
          ls_headers liveResponse ++ [("content-type", contentType)]
      | [] => ls_headers liveResponse
      end
  end.

(** Modelled from the spec: the presence and type check of one declared
    header (name, descriptor, value when present). *)
Variable checkHeader : string → Schema → option string → list ValidationError.

(** Modelled from the spec: each header the ResponseSpec declares is
    checked; undeclared headers are not looked at. *)
Definition header_errors (spec : ResponseSpec)
    (headers : list (string * string)) : list ValidationError :=
  concat ((λ declared, checkHeader declared.1 declared.2
                         (header headers declared.1)) <$> rs_headers spec).

(** Modelled from the spec: the body is checked as one structural value
    against the schema of the ResponseSpec, when it has one. *)
Definition body_errors (spec : ResponseSpec) (body : option value)
  : list ValidationError :=
  match rs_schema spec with
  | Some schema => structural_errors schema (default VUndefined body)
  | None => []
  end.

(** Modelled from the spec: the error for a status code that no
    ResponseSpec covers. *)
Definition invalid_response_code (statusCode : string) : ValidationError :=
  {| code := INVALID_RESPONSE_CODE;
     message := statusCode;
     path := [];
     severity := SevError |}.

(** Modelled from the spec: the response validator,
    [validateResponse(operation, liveResponse)]. *)
Definition validateResponse (operation : Operation)
    (liveResponse : LiveResponse) : ValidationResult :=
  match resolve_response operation (ls_statusCode liveResponse) with
  | Some spec =>
      {| errors :=
           header_errors spec (effective_headers operation liveResponse)
           ++ body_errors spec (ls_body liveResponse);
         warnings := [] |}
  | None =>
      {| errors := [invalid_response_code (ls_statusCode liveResponse)];
         warnings := [] |}
  end.

(** *** Entry points and aggregation *)

(** Modelled from the spec: the [isPathCaseSensitive] option the cache is
    built with. *)
Variable isPathCaseSensitive : bool.

(** Modelled from the spec: what validation does when several operations
    match is left open there; it is a parameter. *)
Variable multipleOperationsFound : list Operation → ValidationResult.

(** Modelled from the spec: a matching failure recovered into a result
    object, the reason as the code of its one error. *)
Definition match_failure (reason : ErrorCode) : ValidationResult :=
  {| errors :=
       [{| code := reason; message := EmptyString; path := [];
           severity := SevError |}];
     warnings := [] |}.

(** Modelled from the spec: a live call first matches; a failed match is
    recovered into the result, a single match is validated against. *)
Definition with_matched_operation
    (cache : gmap string (gmap string (gmap string (list Operation))))
    (url : Url) (method : string)
    (validate : Operation → ValidationResult) : ValidationResult :=
  let matched := getPotentialOperations isPathCaseSensitive cache url method in
  match operations matched with
  | [] => match_failure (default OperationNotFoundInCache (reason matched))
  | [operation] => validate operation
  | several => multipleOperationsFound several
  end.

(** Modelled from the spec: [validateRequest(cache, liveRequest)], which
    matches and then validates. *)
Definition validateLiveRequest
    (cache : gmap string (gmap string (gmap string (list Operation))))
    (liveRequest : LiveRequest) : ValidationResult :=
  with_matched_operation cache (lr_url liveRequest) (lr_method liveRequest)
    (λ operation, validateRequest operation liveRequest).

(** Modelled from the spec: [validateResponse(cache, liveResponse,
    requestContext)], which matches on the request context and then
    validates. *)
Definition validateLiveResponse
    (cache : gmap string (gmap string (gmap string (list Operation))))
    (liveResponse : LiveResponse) (specOperation : RequestContext)
  : ValidationResult :=
  with_matched_operation cache (rc_url specOperation) (rc_method specOperation)
    (λ operation, validateResponse operation liveResponse).

(** Modelled from the spec: the options of the combined entry point. *)
Record ValidateOptions : Type := {
  includeErrors : option (list ErrorCode)
}.

(** Modelled from the spec: a non-empty [includeErrors] keeps the errors
    whose code it lists; absent or empty, it keeps them all. *)
Definition filter_errors (options : ValidateOptions)
    (result : ValidationResult) : ValidationResult :=
  match includeErrors options with
  | None | Some [] => result
  | Some codes =>
      {| errors :=
           List.filter (λ e, bool_decide (code e ∈ codes)) (errors result);
         warnings := warnings result |}
  end.

(** Modelled from the spec: the combined result, the two results side by
    side. *)
Record RequestResponseResult : Type := {
  requestValidationResult : ValidationResult;
  responseValidationResult : ValidationResult
}.

(** Modelled from the spec: the aggregator filters both results and
    leaves its arguments as they are. *)
Definition aggregate (requestResult responseResult : ValidationResult)
    (options : ValidateOptions) : RequestResponseResult :=
  {| requestValidationResult := filter_errors options requestResult;
     responseValidationResult := filter_errors options responseResult |}.

(** Modelled from the spec: a live transaction, request and response. *)
Record RequestResponsePair : Type := {
  liveRequest : LiveRequest;
  liveResponse : LiveResponse
}.

(** Modelled from the spec: the combined entry point. The operation is
    matched once from the request, both validators run against it, and
    the aggregator filters the two results. *)
Definition validateLiveRequestResponse
    (cache : gmap string (gmap string (gmap string (list Operation))))
    (requestResponseObj : RequestResponsePair) (options : ValidateOptions)
  : RequestResponseResult :=
  let request := liveRequest requestResponseObj in
  let response := liveResponse requestResponseObj in
  let matched :=
    getPotentialOperations isPathCaseSensitive cache
      (lr_url request) (lr_method request) in
  match operations matched with
  | [] =>
      let failure :=
        match_failure (default OperationNotFoundInCache (reason matched)) in
      aggregate failure failure options
  | [operation] =>
      aggregate (validateRequest operation request)
        (validateResponse operation response) options
  | several =>
      aggregate (multipleOperationsFound several)
        (multipleOperationsFound several) options
  end.

End Live.

Arguments Build_ParameterSpec {Schema} _ _ _ _ _.
Arguments Build_ResponseSpec {Schema} _ _.
Arguments Build_Operation {Schema} _ _ _ _ _ _.
Arguments Build_MatchResult {Schema} _ _.
Arguments p_name {Schema} _.
Arguments p_location {Schema} _.
Arguments p_required {Schema} _.
Arguments p_schema {Schema} _.
Arguments p_skipUrlEncoding {Schema} _.
Arguments rs_schema {Schema} _.
Arguments rs_headers {Schema} _.
Arguments operationId {Schema} _.
Arguments httpVerb {Schema} _.
Arguments pathTemplate {Schema} _.
Arguments parameters {Schema} _.
Arguments responses {Schema} _.
Arguments producesContentTypes {Schema} _.
Arguments operations {Schema} _.
Arguments reason {Schema} _.
Arguments getPotentialOperations {Schema} _ _ _ _.
Arguments resolve_response {Schema} _ _.
Arguments effective_headers {Schema} _ _.

End LiveValidator.

(** ** Concrete inputs *)

Module Examples.

Import SpecValidator.

(** [utils.mergeObjects] copying every own key of [source] onto [target]:
    [{}] leaves the target as it is, sway's result replaces both keys. *)
Definition mergeObjects_overwrite (source : option ValidationResult)
    (target : ValidationResult) : ValidationResult :=
  match source with
  | None => target
  | Some vr => vr
  end.

(** A stand-in for ms-rest's [prepare]: like the library, it rejects a path
    parameter whose value is neither a string nor an object, and it accepts
    every other options object. *)
Definition acceptable_path_parameter (entry : ParamValue) : bool :=
  match entry with
  | Plain (VStr _) | Plain (VObj _) | Plain (VArr _) => true
  | Plain _ => false
  | SkipUrlEncoding _ => true
  end.

Definition prepare_sample (options : Options) : completion unit :=
  if forallb (λ entry, acceptable_path_parameter entry.2)
       (map_to_list (default ∅ (o_pathParameters options)))
  then Return tt
  else Throw (External "pathTemplate contains a path parameter that is not present in pathParameters").

Definition prepare_ok (options : Options) : completion unit := Return tt.

Definition request_valid (operation : Operation) (request : unit)
  : completion ValidationResult :=
  Return {| errors := []; warnings := [] |}.

Definition param (name' location' : string) (required' : bool) : ParameterObject :=
  {| name := name'; location := location'; required := required';
     xmsSkipUrlEncoding := false |}.

Definition op_job_get : Operation :=
  {| operationId := "Job_Get";
     method := "GET";
     pathObject_path := "/jobs/{jobId}";
     getParameters := [param "jobId" "path" true];
     getResponses := [];
     produces := ["application/json"];
     xmsExamples := None |}.

Definition op_two_required : Operation :=
  {| operationId := "StorageAccounts_Create";
     method := "PUT";
     pathObject_path := "/accounts/{accountName}";
     getParameters :=
       [param "accountName" "path" true; param "api-version" "query" true;
        param "filter" "query" false];
     getResponses := [];
     produces := ["application/json"];
     xmsExamples := None |}.

Definition response_valid (operation : Operation)
    (responseWrapper : ResponseWrapper) : ValidationResult :=
  {| errors := []; warnings := [] |}.

Definition op_storage_accounts_get : Operation :=
  {| operationId := "StorageAccounts_GetProperties";
     method := "GET";
     pathObject_path := "/accounts/{accountName}";
     getParameters := [param "accountName" "path" true];
     getResponses :=
       [{| statusCode := "200"; schema := VObj [("type", VStr "object")] |};
        {| statusCode := "204"; schema := VUndefined |}];
     produces := ["application/json"; "text/json"];
     xmsExamples := None |}.

Definition example_responses : list (string * ExampleResponse) :=
  [("200", {| ex_headers := None; ex_body := VObj [("name", VStr "acc")] |});
   ("204", {| ex_headers := None; ex_body := VStr "unexpected" |});
   ("404", {| ex_headers := Some ∅; ex_body := VUndefined |})].

Definition uninitialized : Instance :=
  {| specPath := "storage.json"; swaggerApi := None |}.

Definition initialized : Instance :=
  {| specPath := "storage.json";
     swaggerApi := Some [op_storage_accounts_get; op_two_required] |}.

End Examples.

Module LiveExamples.

Import LiveValidator.

(** A stand-in for the structural validator: a schema lists the violations
    that every value other than [undefined] and [null] has against it. *)
Definition sample_validateAgainstSchema (schema : list ErrorCode) (v : value)
  : list ErrorCode :=
  match v with
  | VUndefined | VNull => []
  | _ => schema
  end.

Definition sample_translate (raw : ErrorCode) : ValidationError :=
  {| code := raw; message := EmptyString; path := []; severity := SevError |}.

Definition sample_checkHeader (name : string) (schema : list ErrorCode)
    (v : option string) : list ValidationError := [].

Definition sample_multipleOperationsFound
    (several : list (Operation (list ErrorCode))) : ValidationResult :=
  {| errors := []; warnings := [] |}.

Definition accepting : ResponseSpec (list ErrorCode) :=
  {| rs_schema := Some []; rs_headers := [] |}.

Definition storage_operation (id verb : string) (template : list Segment)
  : Operation (list ErrorCode) :=
  {| operationId := id;
     httpVerb := verb;
     pathTemplate := template;
     parameters := [];
     responses := {[ "200" := accepting; "default" := accepting ]};
     producesContentTypes := ["application/json"] |}.

Definition StorageAccounts_List : Operation (list ErrorCode) :=
  storage_operation "StorageAccounts_List" "get"
    [Literal "subscriptions"; Placeholder "subscriptionId";
     Literal "providers"; Literal "Microsoft.Storage";
     Literal "storageAccounts"].

Definition StorageAccounts_CheckNameAvailability : Operation (list ErrorCode) :=
  storage_operation "StorageAccounts_CheckNameAvailability" "post"
    [Literal "subscriptions"; Placeholder "subscriptionId";
     Literal "providers"; Literal "Microsoft.Storage";
     Literal "checkNameAvailability"].

Definition StorageAccounts_Delete : Operation (list ErrorCode) :=
  storage_operation "StorageAccounts_Delete" "delete"
    [Literal "subscriptions"; Placeholder "subscriptionId";
     Literal "resourceGroups"; Placeholder "resourceGroupName";
     Literal "providers"; Literal "Microsoft.Storage";
     Literal "storageAccounts"; Placeholder "accountName"].

(** An operation whose response body is checked against a schema that
    reports three independent violations. *)
Definition Api_Update : Operation (list ErrorCode) :=
  {| operationId := "Api_Update";
     httpVerb := "patch";
     pathTemplate :=
       [Literal "providers"; Literal "Microsoft.ApiManagement";
        Literal "service"; Placeholder "serviceName"];
     parameters :=
       [{| p_name := "serviceName"; p_location := InPath; p_required := true;
           p_schema := [MAX_LENGTH]; p_skipUrlEncoding := false |};
        {| p_name := "If-Match"; p_location := InHeader; p_required := true;
           p_schema := []; p_skipUrlEncoding := false |}];
     responses :=
       {[ "200" :=
            {| rs_schema :=
                 Some [INVALID_TYPE; INVALID_FORMAT; OBJECT_ADDITIONAL_PROPERTIES];
               rs_headers := [] |} ]};
     producesContentTypes := ["application/json"] |}.

Definition cache : gmap string (gmap string (gmap string (list (Operation (list ErrorCode))))) :=
  {[ "microsoft.storage" :=
       {[ "2015-06-15" :=
            {[ "get" := [StorageAccounts_List];
               "post" := [StorageAccounts_CheckNameAvailability];
               "delete" := [StorageAccounts_Delete] ]} ]};
     "microsoft.apimanagement" :=
       {[ "2018-01-01" := {[ "patch" := [Api_Update] ]} ]} ]}.

Definition url (segments : list string) (apiVersion : string) : Url :=
  {| u_segments := segments; u_query := {[ "api-version" := apiVersion ]} |}.

Definition listRequestUrl : Url :=
  url ["subscriptions"; "subscriptionId"; "providers"; "Microsoft.Storage";
       "storageAccounts"] "2015-06-15".

Definition nonCachedApiUrl : Url :=
  url ["subscriptions"; "subscriptionId"; "providers"; "Microsoft.Storage";
       "storageAccounts"] "2015-08-15".

Definition nonCachedProviderUrl : Url :=
  url ["subscriptions"; "subscriptionId"; "providers"; "Hello.World";
       "checkNameAvailability"] "2015-06-15".

Definition nonCachedVerbUrl : Url :=
  url ["subscriptions"; "subscriptionId"; "resourceGroups"; "myRG";
       "providers"; "Microsoft.Storage"; "storageAccounts"; "accname"]
    "2015-06-15".

Definition nonCachedPath : Url :=
  url ["subscriptions"; "subscriptionId"; "providers"; "Microsoft.Storage";
       "storageAccounts"; "accountName"; "properties"] "2015-06-15".

Definition response (statusCode : string) (body : option value) : LiveResponse :=
  {| ls_statusCode := statusCode;
     ls_headers := [("content-Type", "application/json")];
     ls_body := body |}.

Definition multipleErrors_input : RequestResponsePair :=
  {| liveRequest :=
       {| lr_url :=
            url ["providers"; "Microsoft.ApiManagement"; "service"; "apimService1"]
              "2018-01-01";
          lr_method := "PATCH";
          lr_headers := [];
          lr_body := None |};
     liveResponse := response "200" (Some (VObj [("properties", VNum 5)])) |}.

End LiveExamples.

Module MoreExamples.

Import SpecValidator Examples.

Definition all_supplied : gmap string value :=
  {[ "accountName" := VStr "acc"; "api-version" := VStr "2016-01-01" ]}.

Definition op_upload : Operation :=
  {| operationId := "Blob_Upload";
     method := "POST";
     pathObject_path := "/blobs";
     getParameters :=
       [param "api-version" "query" true; param "file" "formData" true;
        param "comment" "header" false];
     getResponses := [];
     produces := ["application/json"];
     xmsExamples := None |}.

Definition upload_values : gmap string value :=
  {[ "api-version" := VStr "2016-01-01"; "file" := VStr "contents";
     "comment" := VStr "first" ]}.

Definition typed_example_responses : list (string * ExampleResponse) :=
  [("200",
    {| ex_headers := Some {[ "Content-Type" := VStr "text/json" ]};
       ex_body := VObj [("name", VStr "acc")] |})].

(** The examples of the 200 response of the sample operation, for two
    mime types. *)
Definition sample_response_examples (response : Response)
  : option (list (string * value)) :=
  if bool_decide (statusCode response = "200") then
    Some [("application/json", VObj [("name", VStr "acc")]);
          ("text/json", VObj [("name", VStr "other")])]
  else None.


(** A validator that reports what it was handed: the status code, the
    content-type header and whether the body is truthy, as the messages of
    three warnings. *)
Definition response_probe (operation : Operation)
    (responseWrapper : ResponseWrapper) : ValidationResult :=
  {| errors := [];
     warnings :=
       [constructErrorObject (Structural "statusCode")
          (rw_statusCode responseWrapper) [];
        constructErrorObject (Structural "content-type")
          (match get (rw_headers responseWrapper) "content-type" with
           | VStr mimeType => mimeType
           | _ => EmptyString
           end) [];
        constructErrorObject (Structural "body")
          (if truthy (rw_body responseWrapper) then "truthy" else "falsy")
          []] |}.

(** A request validator that reports the options it was prepared from. *)
Definition prepare_options (options : Options) : completion Options :=
  Return options.

Definition request_accepted (operation : Operation) (request : Options)
  : completion ValidationResult :=
  Return {| errors := []; warnings := [] |}.

Definition op_constructor : Operation :=
  {| operationId := "Types_Get";
     method := "GET";
     pathObject_path := "/types";
     getParameters := [param "constructor" "query" true];
     getResponses := [];
     produces := ["application/json"];
     xmsExamples := None |}.

Definition falsy_body_responses : list (string * ExampleResponse) :=
  [("204", {| ex_headers := None; ex_body := VBool false |})].

Definition untyped_example_responses : list (string * ExampleResponse) :=
  [("200",
    {| ex_headers := Some {[ "x-ms-request-id" := VStr "1" ]};
       ex_body := VObj [("name", VStr "acc")] |})].

Definition zero_filter : gmap string value :=
  {[ "accountName" := VStr "acc"; "api-version" := VStr "2016-01-01";
     "filter" := VNum 0 ]}.

Definition op_job_scenarios : Operation :=
  {| operationId := "Job_Get";
     method := "GET";
     pathObject_path := "/jobs/{jobId}";
     getParameters := [param "jobId" "path" true];
     getResponses := [];
     produces := ["application/json"];
     xmsExamples :=
       Some [("Get a job",
              {| ex_parameters := {[ "jobId" := VStr "j1" ]};
                 ex_responses := [] |});
             ("Get a job by number",
              {| ex_parameters := {[ "jobId" := VNum 42 ]};
                 ex_responses := [] |})] |}.

End MoreExamples.

Module LiveMoreExamples.

Import LiveValidator LiveExamples.

(** An operation whose default response has a schema that every body
    other than [undefined] and [null] violates. *)
Definition strict_default : ResponseSpec (list ErrorCode) :=
  {| rs_schema := Some [INVALID_TYPE]; rs_headers := [] |}.

Definition Errors_Get : Operation (list ErrorCode) :=
  {| operationId := "Errors_Get";
     httpVerb := "get";
     pathTemplate := [Literal "providers"; Literal "someprovider"];
     parameters := [];
     responses := {[ "200" := accepting; "default" := strict_default ]};
     producesContentTypes := ["application/json"] |}.

End LiveMoreExamples.

(** ** Properties of the example validator *)

Section SpecValidatorProperties.

Import SpecValidator.

Variable HttpRequest : Type.
Variable prepare : Options → completion HttpRequest.
Variable operation_validateRequest :
  Operation → HttpRequest → completion ValidationResult.
Variable mergeObjects :
  option ValidationResult → ValidationResult → ValidationResult.

Lemma get_delete_ne (vals : gmap string value) (k k' : string) :
  k ≠ k' → get (delete k vals) k' = get vals k'.
Proof using Type. intros Hne. unfold get. by rewrite lookup_delete_ne. Qed.

Lemma get_delete_eq (vals : gmap string value) (k : string) :
  k ∉ Object_prototype → get (delete k vals) k = VUndefined.
Proof using Type.
  intros Hk. unfold get. rewrite lookup_delete_eq.
  by rewrite bool_decide_eq_false_2.
Qed.

Lemma falsy_after_delete (vals : gmap string value) (k k' : string) :
  k ∉ Object_prototype →
  truthy (get vals k) = false →
  truthy (get (delete k vals) k') = truthy (get vals k').
Proof using Type.
  intros Hk Hfalsy. destruct (decide (k = k')) as [<- | Hne].
  - by rewrite get_delete_eq, Hfalsy.
  - by rewrite get_delete_ne.
Qed.

(** Deleting a key whose value is falsy, and under which a plain object
    inherits nothing, changes no turn of the loop. *)
Lemma parameter_loop_delete_falsy operation vals k parameters st :
  k ∉ Object_prototype →
  truthy (get vals k) = false →
  parameter_loop operation (delete k vals) parameters st
  = parameter_loop operation vals parameters st.
Proof using Type.
  intros Hk Hfalsy. revert st.
  induction parameters as [| parameter rest IH]; intros st; [done |].
  cbn [parameter_loop]. rewrite falsy_after_delete by done.
  destruct (truthy (get vals (name parameter))) eqn:Htruthy; cbn [negb].
  - rewrite IH. destruct (decide (k = name parameter)) as [-> | Hne].
    + congruence.
    + by rewrite get_delete_ne.
  - destruct (required parameter); [done | apply IH].
Qed.

(** Parameters that are present, or absent but optional, leave the errors
    and [foundIssues] as they were. *)
Lemma parameter_loop_skip operation vals before rest st :
  Forall (λ q, truthy (get vals (name q)) = true ∨ required q = false) before →
  ∃ options',
    parameter_loop operation vals (before ++ rest) st
    = parameter_loop operation vals rest
        {| ls_options := options';
           ls_errors := ls_errors st;
           ls_foundIssues := ls_foundIssues st |}.
Proof using Type.
  intros Hbefore. revert st.
  induction Hbefore as [| q before Hq _ IH]; intros st.
  - exists (ls_options st). by destruct st.
  - cbn [app parameter_loop].
    destruct (truthy (get vals (name q))) eqn:Htruthy; cbn [negb].
    + destruct (IH {| ls_options :=
                        assign_parameter q (get vals (name q)) (ls_options st);
                      ls_errors := ls_errors st;
                      ls_foundIssues := ls_foundIssues st |}) as [o Ho].
      exists o. exact Ho.
    + destruct Hq as [Hq | Hq]; [congruence |]. rewrite Hq. apply IH.
Qed.

(** C1: when the parameter loop found no issue and preparing the request
    (or sway's validation of it) throws, [validateRequest] does not return
    a result holding an ErrorInPreparingRequest error: its catch block
    itself throws, a ReferenceError for the unbound name [error]. *)
Theorem validateRequest_catch_rethrows operation vals err :
  let st :=
    parameter_loop operation vals (getParameters operation)
      (initial_state operation) in
  ls_foundIssues st = false →
  (prepare (ls_options st) = Throw err
   ∨ ∃ request, prepare (ls_options st) = Return request
                ∧ operation_validateRequest operation request = Throw err) →
  validateRequest HttpRequest prepare operation_validateRequest mergeObjects
    operation vals
  = Throw (ReferenceError "error").
Proof using Type.
  intros st Hfound Hthrow. unfold validateRequest. fold st. rewrite Hfound.
  cbn [negb].
  destruct Hthrow as [Hprep | (request & Hprep & Hval)].
  - rewrite Hprep. reflexivity.
  - rewrite Hprep. cbn. rewrite Hval. reflexivity.
Qed.

(** C2 (amended): the first declared parameter that is required and has no
    truthy example value puts exactly one RequiredParameterExampleNotFound
    error in the result; the loop stops there, so the parameters declared
    after it are not looked at, and no request is prepared or validated. *)
Theorem validateRequest_first_missing_required operation vals before p after :
  (∀ target, mergeObjects None target = target) →
  getParameters operation = before ++ p :: after →
  Forall (λ q, truthy (get vals (name q)) = true ∨ required q = false) before →
  required p = true →
  truthy (get vals (name p)) = false →
  validateRequest HttpRequest prepare operation_validateRequest mergeObjects
    operation vals
  = Return
      {| request := None;
         validationResult :=
           {| errors :=
                [constructErrorObject RequiredParameterExampleNotFound
                   (missing_parameter_message operation p) []];
              warnings := [] |} |}.
Proof using Type.
  intros Hmerge Hparams Hbefore Hreq Hfalsy. unfold validateRequest.
  rewrite Hparams.
  destruct (parameter_loop_skip operation vals before (p :: after)
              (initial_state operation) Hbefore) as [o ->].
  cbn [parameter_loop]. rewrite Hfalsy, Hreq. cbn. by rewrite Hmerge.
Qed.

End SpecValidatorProperties.

Section SpecValidatorWitnesses.

Import SpecValidator Examples.

Lemma validateRequest_catch_rethrows_witness :
  validateRequest unit prepare_sample request_valid mergeObjects_overwrite
    op_job_get {[ "jobId" := VNum 42 ]}
  = Throw (ReferenceError "error").
Proof.
  apply (validateRequest_catch_rethrows unit prepare_sample request_valid
           mergeObjects_overwrite op_job_get {[ "jobId" := VNum 42 ]}
           (External "pathTemplate contains a path parameter that is not present in pathParameters")).
  - reflexivity.
  - left. reflexivity.
Defined.

(** The same input with the slip in the catch block repaired would still
    not record the error: [validationResult] is [{}] when the block runs,
    so the [push] onto its [errors] throws as well. *)
Example push_error_on_empty_object e :
  push_error None e
  = Throw (TypeError "Cannot read properties of undefined (reading 'push')").
Proof. reflexivity. Qed.

(** C2, as stated, fails: with two required parameters missing, the result
    holds an error for the first one only; the second one
    ([api-version]) is declared, required and without a value, and no
    error in the result mentions it. *)
Lemma validateRequest_second_missing_unreported :
  let p := param "api-version" "query" true in
  ∃ r,
    validateRequest unit prepare_ok request_valid mergeObjects_overwrite
      op_two_required ∅ = Return r
    ∧ p ∈ getParameters op_two_required
    ∧ required p = true
    ∧ truthy (get ∅ (name p)) = false
    ∧ length (errors (validationResult r)) = 1%nat
    ∧ ¬ ∃ e, e ∈ errors (validationResult r)
             ∧ message e = missing_parameter_message op_two_required p.
Proof.
  intros p. eexists. split; [reflexivity |].
  split; [| split; [reflexivity | split; [reflexivity | split; [reflexivity |]]]].
  - apply list_elem_of_In. right. left. reflexivity.
  - intros (e & Hin & Hmsg). cbn in Hin.
    apply list_elem_of_singleton in Hin. subst e. vm_compute in Hmsg.
    discriminate Hmsg.
Qed.

Lemma validateRequest_first_missing_required_witness :
  validateRequest unit prepare_ok request_valid mergeObjects_overwrite
    op_two_required {[ "accountName" := VStr "acc" ]}
  = Return
      {| request := None;
         validationResult :=
           {| errors :=
                [constructErrorObject RequiredParameterExampleNotFound
                   (missing_parameter_message op_two_required
                      (param "api-version" "query" true)) []];
              warnings := [] |} |}.
Proof.
  apply (validateRequest_first_missing_required unit prepare_ok request_valid
           mergeObjects_overwrite op_two_required
           {[ "accountName" := VStr "acc" ]}
           [param "accountName" "path" true]
           (param "api-version" "query" true)
           [param "filter" "query" false]).
  - intros target. reflexivity.
  - reflexivity.
  - constructor; [left; reflexivity | constructor].
  - reflexivity.
  - reflexivity.
Defined.

End SpecValidatorWitnesses.

Section ExampleResponsesProperties.

Import SpecValidator.

Variable operation_validateResponse :
  Operation → ResponseWrapper → ValidationResult.

Abbreviation validateXmsExampleResponses :=
  (validateXmsExampleResponses operation_validateResponse).
Abbreviation example_responses_loop :=
  (example_responses_loop operation_validateResponse).
Abbreviation validate_example_response :=
  (validate_example_response operation_validateResponse).

(** A status code that the remaining entries do not mention keeps the
    result it has. *)
Lemma example_responses_loop_other operation entries result code :
  code ∉ entries.*1 →
  example_responses_loop operation entries result !! code = result !! code.
Proof using Type.
  revert result.
  induction entries as [| [code' example] rest IH]; intros result Hnotin;
    [done |].
  cbn [example_responses_loop]. cbn in Hnotin.
  apply not_elem_of_cons in Hnotin as [Hne Hrest].
  rewrite IH by done. by rewrite lookup_insert_ne.
Qed.

(** Each status code of the example ends up with the value its own turn
    of the loop computes. *)
Lemma example_responses_loop_lookup operation entries result code example :
  NoDup entries.*1 →
  (code, example) ∈ entries →
  example_responses_loop operation entries result !! code
  = Some (validate_example_response operation code example).
Proof using Type.
  revert result.
  induction entries as [| [code' example'] rest IH]; intros result Hnodup Hin.
  - by apply elem_of_nil in Hin.
  - cbn [example_responses_loop]. cbn in Hnodup.
    apply NoDup_cons in Hnodup as [Hfresh Hnodup].
    apply elem_of_cons in Hin as [Heq | Hin].
    + injection Heq as <- <-.
      rewrite example_responses_loop_other by done.
      by rewrite lookup_insert_eq.
    + by apply IH.
Qed.

Lemma getResponse_None operation code :
  getResponse operation code = None
  ↔ code ∉ statusCode <$> getResponses operation.
Proof using Type.
  unfold getResponse. induction (getResponses operation) as [| r rs IH].
  - split; [intros _ Hin; by apply elem_of_nil in Hin | done].
  - cbn [List.find fmap list_fmap]. case_bool_decide as Hcode.
    + split; [done |]. intros Hnotin. exfalso. apply Hnotin.
      rewrite Hcode. apply elem_of_cons. by left.
    + rewrite IH. split.
      * intros Hnotin Hin. apply elem_of_cons in Hin as [-> | Hin]; done.
      * intros Hnotin Hin. apply Hnotin. by right.
Qed.

(** C7: when the example response has no content-type header under either
    spelling, the response handed to the validator carries under
    [content-type] the first content type that the operation produces
    ([undefined] when it produces none), its other headers, its status
    code and its body as they are; and the result for that status code is
    exactly what the validator returns for that response: the absent
    header adds no error of its own. *)
Theorem validateXmsExampleResponses_assumes_content_type
    operation entries code example response :
  NoDup entries.*1 →
  (code, example) ∈ entries →
  getResponse operation code = Some response →
  truthy (ex_body example) && negb (truthy (schema response)) = false →
  truthy (get (default ∅ (ex_headers example)) "content-type") = false →
  truthy (get (default ∅ (ex_headers example)) "Content-Type") = false →
  validateXmsExampleResponses operation entries !! code
  = Some (operation_validateResponse operation
            {| rw_statusCode := code;
               rw_body := ex_body example;
               rw_headers :=
                 <["content-type" :=
                     match produces operation with
                     | mimeType :: _ => VStr mimeType
                     | [] => VUndefined
                     end]> (default ∅ (ex_headers example)) |}).
Proof using Type.
  intros Hnodup Hin Hresponse Hschema Hlower Hupper.
  unfold SpecValidator.validateXmsExampleResponses.
  rewrite (example_responses_loop_lookup _ _ _ _ example) by done.
  unfold SpecValidator.validate_example_response.
  rewrite Hresponse, Hschema. unfold ensure_content_type, produces_0.
  rewrite Hlower, Hupper. cbn [negb orb]. cbv beta iota.
  by destruct (produces operation).
Qed.

(** C8: for a status code of the example whose declared response has no
    schema while the example supplies a body, the result for that status
    code is a single ResponseSchemaNotInSpec error, whatever the structural
    validator would say; for a status code that the operation does not
    declare it is a single ResponseStatusCodeNotInSpec error. *)
Theorem validateXmsExampleResponses_schema_or_status_code_not_in_spec
    operation entries code example :
  NoDup entries.*1 →
  (code, example) ∈ entries →
  (∀ response,
     getResponse operation code = Some response →
     truthy (ex_body example) = true →
     truthy (schema response) = false →
     validateXmsExampleResponses operation entries !! code
     = Some {| errors :=
                 [constructErrorObject ResponseSchemaNotInSpec
                    (schema_not_in_spec_message operation code) []];
               warnings := [] |})
  ∧ (code ∉ statusCode <$> getResponses operation →
     validateXmsExampleResponses operation entries !! code
     = Some {| errors :=
                 [constructErrorObject ResponseStatusCodeNotInSpec
                    (status_code_not_in_spec_message operation code) []];
               warnings := [] |}).
Proof using Type.
  intros Hnodup Hin. unfold SpecValidator.validateXmsExampleResponses.
  rewrite (example_responses_loop_lookup _ _ _ _ example) by done.
  unfold SpecValidator.validate_example_response. split.
  - intros response Hresponse Hbody Hschema.
    by rewrite Hresponse, Hbody, Hschema.
  - intros Hundeclared. apply getResponse_None in Hundeclared.
    by rewrite Hundeclared.
Qed.

End ExampleResponsesProperties.


Section ExampleResponsesWitnesses.

Import SpecValidator Examples.

Lemma example_responses_NoDup : NoDup example_responses.*1.
Proof. compute_done. Qed.

Lemma untyped_example_responses_NoDup :
  NoDup MoreExamples.untyped_example_responses.*1.
Proof. compute_done. Qed.

(** The validator that reports what it is handed sees the first produced
    content type, and the headers of the example beside it. *)
Lemma validateXmsExampleResponses_assumes_content_type_witness :
  validateXmsExampleResponses MoreExamples.response_probe
    op_storage_accounts_get MoreExamples.untyped_example_responses !! "200"
  = Some {| errors := [];
            warnings :=
              [constructErrorObject (Structural "statusCode") "200" [];
               constructErrorObject (Structural "content-type")
                 "application/json" [];
               constructErrorObject (Structural "body") "truthy" []] |}.
Proof.
  refine (eq_trans
            (validateXmsExampleResponses_assumes_content_type
               MoreExamples.response_probe op_storage_accounts_get
               MoreExamples.untyped_example_responses "200"
               {| ex_headers := Some {[ "x-ms-request-id" := VStr "1" ]};
                  ex_body := VObj [("name", VStr "acc")] |}
               {| statusCode := "200";
                  schema := VObj [("type", VStr "object")] |}
               untyped_example_responses_NoDup _ _ _ _ _) _).
  - apply list_elem_of_In. left. reflexivity.
  - reflexivity.
  - reflexivity.
  - reflexivity.
  - reflexivity.
  - reflexivity.
Defined.

Lemma validateXmsExampleResponses_schema_or_status_code_not_in_spec_witness :
  validateXmsExampleResponses response_valid op_storage_accounts_get
    example_responses !! "204"
  = Some {| errors :=
              [constructErrorObject ResponseSchemaNotInSpec
                 (schema_not_in_spec_message op_storage_accounts_get "204") []];
            warnings := [] |}
  ∧ validateXmsExampleResponses response_valid op_storage_accounts_get
      example_responses !! "404"
    = Some {| errors :=
                [constructErrorObject ResponseStatusCodeNotInSpec
                   (status_code_not_in_spec_message op_storage_accounts_get "404")
                   []];
              warnings := [] |}.
Proof.
  split.
  - refine (proj1 (validateXmsExampleResponses_schema_or_status_code_not_in_spec
                     response_valid op_storage_accounts_get example_responses
                     "204"
                     {| ex_headers := None; ex_body := VStr "unexpected" |}
                     example_responses_NoDup _)
              {| statusCode := "204"; schema := VUndefined |} _ _ _).
    + apply list_elem_of_In. right. left. reflexivity.
    + reflexivity.
    + reflexivity.
    + reflexivity.
  - refine (proj2 (validateXmsExampleResponses_schema_or_status_code_not_in_spec
                     response_valid op_storage_accounts_get example_responses
                     "404"
                     {| ex_headers := Some ∅; ex_body := VUndefined |}
                     example_responses_NoDup _) _).
    + apply list_elem_of_In. right. right. left. reflexivity.
    + compute_done.
Defined.

End ExampleResponsesWitnesses.

Section GetXmsExamplesProperties.

Import SpecValidator.

(** C10: for every string argument [getXmsExamples] throws (on the empty
    string the argument check, on any other string the read of the unbound
    name [self]); whatever the argument, the call either throws or the
    argument is an operation object, whose x-ms-examples it returns. *)
Theorem getXmsExamples_string_argument_throws (this : Instance) :
  (∀ id, throws (getXmsExamples this (ArgId id)))
  ∧ (∀ id, id ≠ EmptyString →
           getXmsExamples this (ArgId id) = Throw (ReferenceError "self"))
  ∧ (∀ idOrObj,
       throws (getXmsExamples this idOrObj)
       ∨ ∃ operation,
           idOrObj = ArgObj operation
           ∧ getXmsExamples this idOrObj = Return (xmsExamples operation)).
Proof.
  split; [| split].
  - intros [| c id]; eexists; reflexivity.
  - intros [| c id] Hne; [done | reflexivity].
  - intros [| | [| c id] | operation].
    + left. eexists. reflexivity.
    + left. eexists. reflexivity.
    + left. eexists. reflexivity.
    + left. eexists. reflexivity.
    + right. exists operation. split; reflexivity.
Qed.

End GetXmsExamplesProperties.

Section GetXmsExamplesWitnesses.

Import SpecValidator Examples.

Lemma getXmsExamples_string_argument_throws_witness :
  getXmsExamples initialized (ArgId "StorageAccounts_GetProperties")
  = Throw (ReferenceError "self").
Proof.
  apply (proj1 (proj2 (getXmsExamples_string_argument_throws initialized))).
  discriminate.
Defined.

(** With the names resolved, the operation the id denotes is there to find:
    the lookup by id is not what fails. *)
Example getOperationById_finds_the_operation :
  getOperationById initialized "StorageAccounts_GetProperties"
  = Return (Some op_storage_accounts_get).
Proof. reflexivity. Qed.

End GetXmsExamplesWitnesses.

(** ** Properties of the live contract validator *)

Section LiveValidatorProperties.

Import LiveValidator.

Variable Schema : Type.
Variable RawError : Type.
Variable validateAgainstSchema : Schema → value → list RawError.
Variable translate : RawError → ValidationError.
Variable urlDecode : string → string.
Variable checkHeader : string → Schema → option string → list ValidationError.
Variable isPathCaseSensitive : bool.
Variable multipleOperationsFound : list (Operation Schema) → ValidationResult.

Abbreviation validateRequest :=
  (validateRequest Schema RawError validateAgainstSchema translate urlDecode).
Abbreviation validateResponse :=
  (validateResponse Schema RawError validateAgainstSchema translate checkHeader).
Abbreviation validateLiveRequest :=
  (validateLiveRequest Schema RawError validateAgainstSchema translate
     urlDecode isPathCaseSensitive multipleOperationsFound).
Abbreviation validateLiveResponse :=
  (validateLiveResponse Schema RawError validateAgainstSchema translate
     checkHeader isPathCaseSensitive multipleOperationsFound).
Abbreviation validateLiveRequestResponse :=
  (validateLiveRequestResponse Schema RawError validateAgainstSchema translate
     urlDecode checkHeader isPathCaseSensitive multipleOperationsFound).

(** Membership in a list given by its elements. *)
Local Ltac listed :=
  apply list_elem_of_In; cbn; repeat ((left; reflexivity) || right).

Lemma filter_nil_iff {A} (f : A → bool) (l : list A) :
  List.filter f l = [] ↔ Forall (λ x, f x = false) l.
Proof using Type.
  induction l as [| x l IH]; cbn [List.filter].
  - split; [constructor | done].
  - destruct (f x) eqn:Hfx.
    + split; [done |]. intros Hall. apply Forall_cons in Hall as [Hx _].
      congruence.
    + rewrite IH. split.
      * intros Hall. by constructor.
      * intros Hall. by apply Forall_cons in Hall as [_ Hall].
Qed.

(** C4: the matcher is a total function, and each kind of miss has its own
    reason next to an empty operation list: no bucket for the provider, no
    bucket for the api-version under the provider, no (or an empty) bucket
    for the verb, and no candidate whose path template matches; whenever a
    reason is given the operation list is empty. *)
Theorem getPotentialOperations_failure_reasons
    (cache : gmap string (gmap string (gmap string (list (Operation Schema)))))
    (url : Url) (verb : string) :
  let provider := getProvider (u_segments url) in
  let apiVersion := getApiVersion url in
  let verb' := toLowerCase verb in
  let result := getPotentialOperations isPathCaseSensitive cache url verb in
  (cache !! provider = None →
   result = {| operations := [];
               reason := Some OperationNotFoundInCacheWithProvider |})
  ∧ (∀ apis,
       cache !! provider = Some apis →
       apis !! apiVersion = None →
       result = {| operations := [];
                   reason := Some OperationNotFoundInCacheWithApi |})
  ∧ (∀ apis verbs,
       cache !! provider = Some apis →
       apis !! apiVersion = Some verbs →
       verbs !! verb' = None ∨ verbs !! verb' = Some [] →
       result = {| operations := [];
                   reason := Some OperationNotFoundInCacheWithVerb |})
  ∧ (∀ apis verbs candidates,
       cache !! provider = Some apis →
       apis !! apiVersion = Some verbs →
       verbs !! verb' = Some candidates →
       candidates ≠ [] →
       Forall (λ operation,
                 template_matches isPathCaseSensitive (pathTemplate operation)
                   (u_segments url) = false) candidates →
       result = {| operations := [];
                   reason := Some OperationNotFoundInCache |})
  ∧ (∀ code,
       reason result = Some code →
       operations result = []
       ∧ code ∈ [OperationNotFoundInCacheWithProvider;
                 OperationNotFoundInCacheWithApi;
                 OperationNotFoundInCacheWithVerb;
                 OperationNotFoundInCache]).
Proof using Type.
  intros provider apiVersion verb' result.
  unfold result, getPotentialOperations. fold provider apiVersion verb'.
  split; [| split; [| split; [| split]]].
  - by intros ->.
  - by intros apis -> ->.
  - by intros apis verbs -> -> [-> | ->].
  - intros apis verbs candidates -> -> -> Hne Hnone.
    apply filter_nil_iff in Hnone. rewrite Hnone. by destruct candidates.
  - intros code.
    destruct (cache !! provider) as [apis |];
      [| intros [= <-]; split; [done | listed]].
    destruct (apis !! apiVersion) as [verbs |];
      [| intros [= <-]; split; [done | listed]].
    destruct (verbs !! verb') as [[| c cs] |];
      [intros [= <-]; split; [done | listed] |
      | intros [= <-]; split; [done | listed]].
    destruct (List.filter _ _);
      [intros [= <-]; split; [done | listed] | done].
Qed.

(** C3: for a status code the operation does not declare, with a default
    response declared: a code of at least 400 is validated against the
    default response, so its errors are those of the header and body checks
    against it and none when these checks pass; a code below 400 yields
    exactly one error, INVALID_RESPONSE_CODE, whatever the body is. *)
Theorem validateResponse_undeclared_status_code
    (operation : Operation Schema) (liveResponse : LiveResponse)
    (defaultResponse : ResponseSpec Schema) (n : N) :
  responses operation !! ls_statusCode liveResponse = None →
  responses operation !! "default" = Some defaultResponse →
  status_number (ls_statusCode liveResponse) = Some n →
  ((400 ≤ n)%N →
   errors (validateResponse operation liveResponse)
   = header_errors Schema checkHeader defaultResponse
       (effective_headers operation liveResponse)
     ++ body_errors Schema RawError validateAgainstSchema translate
          defaultResponse (ls_body liveResponse)
   ∧ (header_errors Schema checkHeader defaultResponse
        (effective_headers operation liveResponse) = [] →
      body_errors Schema RawError validateAgainstSchema translate
        defaultResponse (ls_body liveResponse) = [] →
      errors (validateResponse operation liveResponse) = []))
  ∧ ((n < 400)%N →
     ∃ e, validateResponse operation liveResponse
          = {| errors := [e]; warnings := [] |}
          ∧ e = invalid_response_code (ls_statusCode liveResponse)
          ∧ code e = INVALID_RESPONSE_CODE).
Proof using Type.
  intros Hundeclared Hdefault Hnumber.
  unfold LiveValidator.validateResponse, resolve_response, is_error_range.
  rewrite Hundeclared, Hdefault, Hnumber. split.
  - intros Hge. apply N.leb_le in Hge. rewrite Hge. cbn [errors].
    split; [done |]. by intros -> ->.
  - intros Hlt. apply N.leb_gt in Hlt. rewrite Hlt. eexists. done.
Qed.

(** The combined entry point is the aggregation of the two separate ones. *)
Lemma validateLiveRequestResponse_aggregate cache requestResponseObj options :
  validateLiveRequestResponse cache requestResponseObj options
  = aggregate
      (validateLiveRequest cache (liveRequest requestResponseObj))
      (validateLiveResponse cache (liveResponse requestResponseObj)
         {| rc_url := lr_url (liveRequest requestResponseObj);
            rc_method := lr_method (liveRequest requestResponseObj) |})
      options.
Proof using Type.
  unfold LiveValidator.validateLiveRequestResponse,
    LiveValidator.validateLiveRequest, LiveValidator.validateLiveResponse,
    with_matched_operation.
  cbn [rc_url rc_method].
  destruct (operations (getPotentialOperations _ _ _ _)) as [| op [| op' ops]];
    reflexivity.
Qed.

Lemma filter_errors_off options result :
  includeErrors options = None ∨ includeErrors options = Some [] →
  filter_errors options result = result.
Proof using Type. unfold filter_errors. by intros [-> | ->]. Qed.

Lemma filter_errors_on options codes result :
  includeErrors options = Some codes →
  codes ≠ [] →
  filter_errors options result
  = {| errors :=
         List.filter (λ e, bool_decide (code e ∈ codes)) (errors result);
       warnings := warnings result |}.
Proof using Type. unfold filter_errors. intros -> Hne. by destruct codes. Qed.

(** C5: called without an error-code filter, the combined entry point gives
    as request result what [validateLiveRequest] gives for the same request,
    and as response result what [validateLiveResponse] gives for the same
    response with the url and method of the request. *)
Theorem validateLiveRequestResponse_agrees_with_separate_calls
    cache requestResponseObj options :
  includeErrors options = None ∨ includeErrors options = Some [] →
  let result := validateLiveRequestResponse cache requestResponseObj options in
  requestValidationResult result
  = validateLiveRequest cache (liveRequest requestResponseObj)
  ∧ responseValidationResult result
    = validateLiveResponse cache (liveResponse requestResponseObj)
        {| rc_url := lr_url (liveRequest requestResponseObj);
           rc_method := lr_method (liveRequest requestResponseObj) |}.
Proof using Type.
  intros Hoff result. unfold result.
  rewrite validateLiveRequestResponse_aggregate. unfold aggregate.
  cbn [requestValidationResult responseValidationResult].
  by rewrite !filter_errors_off.
Qed.

(** C6: with a non-empty [includeErrors], the error lists of the request
    and of the response result are the errors that the validation of the
    request and of the response report, restricted in their order to the
    listed codes, so every error left has a listed code and every reported
    error with a listed code is left; with [includeErrors] absent or
    empty the two results are the validation results themselves, every
    error in them. When one operation matches, these are the results of
    the request and of the response validator for that operation. *)
Theorem validateLiveRequestResponse_includeErrors
    cache requestResponseObj options :
  let result := validateLiveRequestResponse cache requestResponseObj options in
  let request := liveRequest requestResponseObj in
  let response := liveResponse requestResponseObj in
  let requestResult := validateLiveRequest cache request in
  let responseResult :=
    validateLiveResponse cache response
      {| rc_url := lr_url request; rc_method := lr_method request |} in
  (∀ codes,
     includeErrors options = Some codes →
     codes ≠ [] →
     errors (requestValidationResult result)
     = List.filter (λ e, bool_decide (code e ∈ codes)) (errors requestResult)
     ∧ errors (responseValidationResult result)
       = List.filter (λ e, bool_decide (code e ∈ codes))
           (errors responseResult)
     ∧ Forall (λ e, code e ∈ codes) (errors (requestValidationResult result))
     ∧ Forall (λ e, code e ∈ codes) (errors (responseValidationResult result)))
  ∧ (includeErrors options = None ∨ includeErrors options = Some [] →
     requestValidationResult result = requestResult
     ∧ responseValidationResult result = responseResult)
  ∧ (∀ operation,
       operations (getPotentialOperations isPathCaseSensitive cache
                     (lr_url request) (lr_method request)) = [operation] →
       requestResult = validateRequest operation request
       ∧ responseResult = validateResponse operation response).
Proof using Type.
  intros result request response requestResult responseResult.
  unfold result, requestResult, responseResult, request, response.
  rewrite validateLiveRequestResponse_aggregate. unfold aggregate.
  cbn [requestValidationResult responseValidationResult].
  split; [| split].
  - intros codes Hcodes Hne.
    rewrite !(filter_errors_on options codes) by done.
    cbn [errors]. split; [done | split; [done |]].
    split; apply Forall_forall; intros e He; apply list_elem_of_In in He;
      apply filter_In in He as [_ He]; by apply bool_decide_eq_true in He.
  - intros Hoff. by rewrite !filter_errors_off.
  - intros operation Hone.
    unfold LiveValidator.validateLiveRequest,
      LiveValidator.validateLiveResponse, with_matched_operation.
    cbn [rc_url rc_method]. by rewrite Hone.
Qed.

End LiveValidatorProperties.

Section LiveValidatorWitnesses.

Import LiveValidator LiveExamples.

Abbreviation sample_validateResponse :=
  (validateResponse (list ErrorCode) ErrorCode sample_validateAgainstSchema
     sample_translate sample_checkHeader).
Abbreviation sample_validateLiveRequest :=
  (validateLiveRequest (list ErrorCode) ErrorCode sample_validateAgainstSchema
     sample_translate id false sample_multipleOperationsFound).
Abbreviation sample_validateLiveResponse :=
  (validateLiveResponse (list ErrorCode) ErrorCode sample_validateAgainstSchema
     sample_translate sample_checkHeader false sample_multipleOperationsFound).
Abbreviation sample_validateLiveRequestResponse :=
  (validateLiveRequestResponse (list ErrorCode) ErrorCode
     sample_validateAgainstSchema sample_translate id sample_checkHeader false
     sample_multipleOperationsFound).

(** The four misses of the test-suite, each with its reason. *)
Lemma getPotentialOperations_failure_reasons_witness :
  getPotentialOperations false cache nonCachedProviderUrl "PoSt"
  = {| operations := [];
       reason := Some OperationNotFoundInCacheWithProvider |}
  ∧ getPotentialOperations false cache nonCachedApiUrl "Get"
    = {| operations := []; reason := Some OperationNotFoundInCacheWithApi |}
  ∧ getPotentialOperations false cache nonCachedVerbUrl "head"
    = {| operations := []; reason := Some OperationNotFoundInCacheWithVerb |}
  ∧ getPotentialOperations false cache nonCachedPath "get"
    = {| operations := []; reason := Some OperationNotFoundInCache |}.
Proof.
  split; [| split; [| split]].
  - apply (proj1 (getPotentialOperations_failure_reasons (list ErrorCode) false
                    cache nonCachedProviderUrl "PoSt")).
    reflexivity.
  - eapply (proj1 (proj2 (getPotentialOperations_failure_reasons
                            (list ErrorCode) false cache nonCachedApiUrl "Get"))).
    + reflexivity.
    + reflexivity.
  - eapply (proj1 (proj2 (proj2 (getPotentialOperations_failure_reasons
                                   (list ErrorCode) false cache
                                   nonCachedVerbUrl "head")))).
    + reflexivity.
    + reflexivity.
    + left. reflexivity.
  - eapply (proj1 (proj2 (proj2 (proj2
              (getPotentialOperations_failure_reasons (list ErrorCode) false
                 cache nonCachedPath "get"))))).
    + reflexivity.
    + reflexivity.
    + reflexivity.
    + discriminate.
    + repeat constructor.
Defined.

(** The request that the cache does cover resolves to its one operation. *)
Example getPotentialOperations_list_request :
  getPotentialOperations false cache listRequestUrl "Get"
  = {| operations := [StorageAccounts_List]; reason := None |}.
Proof. reflexivity. Qed.

(** The two responses of the test-suite: 404 passes, 300 does not. *)
Lemma validateResponse_undeclared_status_code_witness :
  errors (sample_validateResponse StorageAccounts_List (response "404" None))
  = []
  ∧ ∃ e,
      sample_validateResponse StorageAccounts_List (response "300" None)
      = {| errors := [e]; warnings := [] |}
      ∧ e = invalid_response_code "300"
      ∧ code e = INVALID_RESPONSE_CODE.
Proof.
  split.
  - refine (proj2 (proj1 (validateResponse_undeclared_status_code
                            (list ErrorCode) ErrorCode
                            sample_validateAgainstSchema sample_translate
                            sample_checkHeader StorageAccounts_List
                            (response "404" None) accepting 404%N _ _ _) _)
              _ _);
      try reflexivity.
    discriminate.
  - refine (proj2 (validateResponse_undeclared_status_code
                     (list ErrorCode) ErrorCode
                     sample_validateAgainstSchema sample_translate
                     sample_checkHeader StorageAccounts_List
                     (response "300" None) accepting 300%N _ _ _) _);
      reflexivity.
Defined.

Lemma validateLiveRequestResponse_agrees_with_separate_calls_witness :
  let result :=
    sample_validateLiveRequestResponse cache multipleErrors_input
      {| includeErrors := Some [] |} in
  requestValidationResult result
  = sample_validateLiveRequest cache (liveRequest multipleErrors_input)
  ∧ responseValidationResult result
    = sample_validateLiveResponse cache (liveResponse multipleErrors_input)
        {| rc_url := lr_url (liveRequest multipleErrors_input);
           rc_method := lr_method (liveRequest multipleErrors_input) |}.
Proof.
  apply (validateLiveRequestResponse_agrees_with_separate_calls
           (list ErrorCode) ErrorCode sample_validateAgainstSchema
           sample_translate id sample_checkHeader false
           sample_multipleOperationsFound cache multipleErrors_input
           {| includeErrors := Some [] |}).
  right. reflexivity.
Defined.

(** The payload with three independent violations in its response: the
    listed one is left under [includeErrors: [INVALID_TYPE]], all three
    under an empty list. *)
Lemma validateLiveRequestResponse_includeErrors_witness :
  code <$> errors (responseValidationResult
                     (sample_validateLiveRequestResponse cache
                        multipleErrors_input
                        {| includeErrors := Some [INVALID_TYPE] |}))
  = [INVALID_TYPE]
  ∧ code <$> errors (responseValidationResult
                       (sample_validateLiveRequestResponse cache
                          multipleErrors_input
                          {| includeErrors := Some [] |}))
    = [INVALID_TYPE; INVALID_FORMAT; OBJECT_ADDITIONAL_PROPERTIES].
Proof.
  split.
  - destruct (proj1 (validateLiveRequestResponse_includeErrors
                       (list ErrorCode) ErrorCode sample_validateAgainstSchema
                       sample_translate id sample_checkHeader false
                       sample_multipleOperationsFound cache
                       multipleErrors_input
                       {| includeErrors := Some [INVALID_TYPE] |})
                [INVALID_TYPE] eq_refl ltac:(discriminate))
      as (_ & Hresponse & _).
    rewrite Hresponse. reflexivity.
  - destruct (proj1 (proj2 (validateLiveRequestResponse_includeErrors
                              (list ErrorCode) ErrorCode
                              sample_validateAgainstSchema sample_translate id
                              sample_checkHeader false
                              sample_multipleOperationsFound cache
                              multipleErrors_input
                              {| includeErrors := Some [] |}))
                (or_intror eq_refl))
      as [_ Hresponse].
    rewrite Hresponse. reflexivity.
Defined.

(** The payload with three independent violations: all three without a
    filter or with an empty one, the listed one with
    [includeErrors: [INVALID_TYPE]]. *)
Example multipleErrors_unfiltered :
  code <$> errors (responseValidationResult
                     (sample_validateLiveRequestResponse cache
                        multipleErrors_input {| includeErrors := None |}))
  = [INVALID_TYPE; INVALID_FORMAT; OBJECT_ADDITIONAL_PROPERTIES]
  ∧ code <$> errors (responseValidationResult
                       (sample_validateLiveRequestResponse cache
                          multipleErrors_input {| includeErrors := Some [] |}))
    = [INVALID_TYPE; INVALID_FORMAT; OBJECT_ADDITIONAL_PROPERTIES].
Proof. split; reflexivity. Qed.

Example multipleErrors_filtered :
  code <$> errors (responseValidationResult
                     (sample_validateLiveRequestResponse cache
                        multipleErrors_input
                        {| includeErrors := Some [INVALID_TYPE] |}))
  = [INVALID_TYPE].
Proof. reflexivity. Qed.

End LiveValidatorWitnesses.

(** ** Further properties of the example validator *)

Section RequestLoopProperties.

Import SpecValidator.

Lemma assign_parameter_method_path parameter v options :
  o_method (assign_parameter parameter v options) = o_method options
  ∧ o_pathTemplate (assign_parameter parameter v options)
    = o_pathTemplate options.
Proof. unfold assign_parameter. by repeat case_bool_decide. Qed.

Lemma parameter_loop_method_path operation vals parameters st :
  o_method (ls_options (parameter_loop operation vals parameters st))
  = o_method (ls_options st)
  ∧ o_pathTemplate (ls_options (parameter_loop operation vals parameters st))
    = o_pathTemplate (ls_options st).
Proof.
  revert st. induction parameters as [| p rest IH]; intros st; [done |].
  cbn [parameter_loop].
  destruct (truthy (get vals (name p))); cbn [negb].
  - destruct (IH {| ls_options :=
                      assign_parameter p (get vals (name p)) (ls_options st);
                    ls_errors := ls_errors st;
                    ls_foundIssues := ls_foundIssues st |}) as [-> ->].
    cbn [ls_options]. apply assign_parameter_method_path.
  - destruct (required p); [done | apply IH].
Qed.

(** X1: whatever parameters the operation declares and whatever the example
    supplies (a parameter called [method] or [pathTemplate] included), the
    options that reach request preparation carry the method and the path
    template of the operation. *)
Theorem parameter_loop_keeps_method_and_path operation vals :
  let st :=
    parameter_loop operation vals (getParameters operation)
      (initial_state operation) in
  o_method (ls_options st) = method operation
  ∧ o_pathTemplate (ls_options st) = pathObject_path operation.
Proof. intros st. unfold st. apply parameter_loop_method_path. Qed.

(** From a state without issues the loop ends either without issues and
    with the errors it started from, or with one more error, the one of a
    declared parameter that is required and has no truthy value. *)
Lemma parameter_loop_issues operation vals parameters st :
  ls_foundIssues st = false →
  let st' := parameter_loop operation vals parameters st in
  (ls_foundIssues st' = false
   ∧ ls_errors st' = ls_errors st
   ∧ Forall (λ q, truthy (get vals (name q)) = true ∨ required q = false)
       parameters)
  ∨ (ls_foundIssues st' = true
     ∧ ∃ p, p ∈ parameters
            ∧ required p = true
            ∧ truthy (get vals (name p)) = false
            ∧ ls_errors st'
              = ls_errors st
                ++ [constructErrorObject RequiredParameterExampleNotFound
                      (missing_parameter_message operation p) []]).
Proof.
  revert st. induction parameters as [| p rest IH]; intros st Hst st'.
  - left. by repeat split.
  - unfold st'. cbn [parameter_loop].
    destruct (truthy (get vals (name p))) eqn:Hp; cbn [negb].
    + destruct (IH {| ls_options :=
                        assign_parameter p (get vals (name p)) (ls_options st);
                      ls_errors := ls_errors st;
                      ls_foundIssues := ls_foundIssues st |} Hst)
        as [(Hf & He & Hall) | (Hf & q & Hq & Hreq & Hfalsy & He)].
      * left. split; [done | split; [done |]]. constructor; [by left | done].
      * right. split; [done |]. exists q.
        split; [by apply elem_of_cons; right | done].
    + destruct (required p) eqn:Hreq.
      * right. split; [done |]. exists p.
        split; [by apply elem_of_cons; left | done].
      * destruct (IH st Hst)
          as [(Hf & He & Hall) | (Hf & q & Hq & Hreq' & Hfalsy & He)].
        -- left. split; [done | split; [done |]].
           constructor; [by right | done].
        -- right. split; [done |]. exists q.
           split; [by apply elem_of_cons; right | done].
Qed.

(** X2: the parameter loop of [validateRequest] records at most one error.
    It ends with [foundIssues] set exactly when some declared parameter is
    required and has no truthy example value; the errors are then the one
    RequiredParameterExampleNotFound error of such a parameter, and there
    are none otherwise. *)
Theorem parameter_loop_at_most_one_error operation vals :
  let st :=
    parameter_loop operation vals (getParameters operation)
      (initial_state operation) in
  (ls_foundIssues st = true
   ↔ Exists (λ p, required p = true ∧ truthy (get vals (name p)) = false)
       (getParameters operation))
  ∧ (ls_foundIssues st = false ∧ ls_errors st = []
     ∨ ls_foundIssues st = true
       ∧ ∃ p, p ∈ getParameters operation
              ∧ required p = true
              ∧ truthy (get vals (name p)) = false
              ∧ ls_errors st
                = [constructErrorObject RequiredParameterExampleNotFound
                     (missing_parameter_message operation p) []]).
Proof.
  intros st. subst st.
  destruct (parameter_loop_issues operation vals (getParameters operation)
              (initial_state operation) eq_refl)
    as [(Hf & He & Hall) | (Hf & p & Hp & Hreq & Hfalsy & He)].
  - split; [| by left]. rewrite Hf. split; [done |].
    intros Hex. apply Exists_exists in Hex as (p & Hp & Hreq & Hfalsy).
    rewrite Forall_forall in Hall. destruct (Hall p Hp); congruence.
  - split.
    + split; [| done]. intros _. apply Exists_exists. by exists p.
    + right. split; [done |]. by exists p.
Qed.

End RequestLoopProperties.

Section RequestOptionsProperties.

Import SpecValidator.




Lemma assign_parameter_unknown_location p v options :
  location p ∉ ["path"; "query"; "body"; "header"] →
  assign_parameter p v options = options.
Proof.
  intros Hloc. unfold assign_parameter.
  repeat case_bool_decide; try done; exfalso; apply Hloc;
    match goal with H : location p = _ |- _ => rewrite H end;
    apply list_elem_of_In; cbn; auto.
Qed.

(** X4: a declared parameter whose location is none of path, query, body
    and header (a formData parameter, say) leaves no trace: when it has a
    truthy example value, or is optional, the loop ends in the state it
    would end in if the parameter were not declared. *)
Theorem parameter_loop_ignores_other_locations
    operation vals before p after st :
  location p ∉ ["path"; "query"; "body"; "header"] →
  truthy (get vals (name p)) = true ∨ required p = false →
  parameter_loop operation vals (before ++ p :: after) st
  = parameter_loop operation vals (before ++ after) st.
Proof.
  intros Hloc Hp. revert st.
  induction before as [| q before IH]; intros st.
  - cbn [app parameter_loop].
    destruct (truthy (get vals (name p))) eqn:Htruthy; cbn [negb].
    + rewrite assign_parameter_unknown_location by done. by destruct st.
    + destruct Hp as [Hp | Hp]; [done |]. by rewrite Hp.
  - cbn [app parameter_loop].
    destruct (truthy (get vals (name q))); cbn [negb].
    + apply IH.
    + destruct (required q); [done | apply IH].
Qed.

End RequestOptionsProperties.

Section ValidateRequestOutcomes.

Import SpecValidator.

Variable HttpRequest : Type.
Variable prepare : Options → completion HttpRequest.
Variable operation_validateRequest :
  Operation → HttpRequest → completion ValidationResult.
Variable mergeObjects :
  option ValidationResult → ValidationResult → ValidationResult.

Abbreviation validateRequest' :=
  (validateRequest HttpRequest prepare operation_validateRequest mergeObjects).

(** X6: when every declared parameter has a truthy example value or is
    optional, and request preparation and sway's validation return, the
    result carries the prepared request and sway's validation result merged
    over an empty list of errors: the loop itself adds none. *)
Theorem validateRequest_all_parameters_supplied operation vals request vr :
  Forall (λ q, truthy (get vals (name q)) = true ∨ required q = false)
    (getParameters operation) →
  let st :=
    parameter_loop operation vals (getParameters operation)
      (initial_state operation) in
  prepare (ls_options st) = Return request →
  operation_validateRequest operation request = Return vr →
  validateRequest' operation vals
  = Return {| request := Some request;
              validationResult :=
                mergeObjects (Some vr) {| errors := []; warnings := [] |} |}.
Proof using Type.
  intros Hall st Hprep Hval. unfold validateRequest. fold st.
  destruct (parameter_loop_issues operation vals (getParameters operation)
              (initial_state operation) eq_refl)
    as [(Hf & He & _) | (Hf & p & Hp & Hreq & Hfalsy & _)].
  - fold st in Hf, He. rewrite Hf, He. cbn [negb].
    rewrite Hprep. cbn. rewrite Hval. reflexivity.
  - rewrite Forall_forall in Hall. destruct (Hall p Hp); congruence.
Qed.

End ValidateRequestOutcomes.

Section GetOperationByIdProperties.

Import SpecValidator.

Lemma find_first_occurrence {A} (f : A → bool) (l : list A) :
  match List.find f l with
  | Some x =>
      ∃ before after,
        l = before ++ x :: after
        ∧ f x = true
        ∧ Forall (λ y, f y = false) before
  | None => Forall (λ y, f y = false) l
  end.
Proof.
  induction l as [| y l IH]; cbn [List.find]; [constructor |].
  destruct (f y) eqn:Hy.
  - exists [], l. by repeat split.
  - destruct (List.find f l) as [x |].
    + destruct IH as (before & after & -> & Hx & Hbefore).
      exists (y :: before), after. repeat split; [done |]. by constructor.
    + by constructor.
Qed.

(** X7: on an initialized validator and for a non-empty id,
    [getOperationById] returns the first operation of the spec with that
    operationId, and [undefined] exactly when no operation has it. It never
    throws on such a call. *)
Theorem getOperationById_first_match self operations id :
  swaggerApi self = Some operations →
  id ≠ EmptyString →
  ∃ found,
    getOperationById self id = Return found
    ∧ match found with
      | Some operation =>
          operationId operation = id
          ∧ ∃ before after,
              operations = before ++ operation :: after
              ∧ Forall (λ other, operationId other ≠ id) before
      | None => Forall (λ other, operationId other ≠ id) operations
      end.
Proof.
  intros Hapi Hid. unfold getOperationById. rewrite Hapi.
  destruct id as [| c id]; [done |]. cbn [truthy negb].
  eexists. split; [reflexivity |].
  pose proof (find_first_occurrence
                (λ item, bool_decide (operationId item = String c id))
                operations) as Hfind.
  destruct (List.find _ operations) as [operation |].
  - destruct Hfind as (before & after & -> & Hop & Hbefore).
    apply bool_decide_eq_true in Hop. split; [done |].
    exists before, after. split; [done |].
    eapply Forall_impl; [exact Hbefore |].
    intros other Hother. by apply bool_decide_eq_false in Hother.
  - eapply Forall_impl; [exact Hfind |].
    intros other Hother. by apply bool_decide_eq_false in Hother.
Qed.

(** X8: [getOperationById] throws exactly when the validator is not
    initialized or the id is the empty string; before initialization it
    throws whatever the id. *)
Theorem getOperationById_throws_iff self id :
  throws (getOperationById self id)
  ↔ swaggerApi self = None ∨ id = EmptyString.
Proof.
  unfold getOperationById. destruct (swaggerApi self) as [operations |].
  - destruct id as [| c id]; cbn [truthy negb].
    + split; [by right | intros _; by eexists].
    + split; [intros [e He]; discriminate | intros [? | ?]; discriminate].
  - split; [by left | intros _; by eexists].
Qed.

End GetOperationByIdProperties.

Section ExampleResponsesMore.

Import SpecValidator.

Variable operation_validateResponse :
  Operation → ResponseWrapper → ValidationResult.



(** X10: when the example response has a truthy content-type header under
    either spelling, its headers reach the validator as they are: nothing
    is added to them and the produced content types are not consulted. *)
Theorem validateXmsExampleResponses_keeps_content_type
    operation entries code example response headers :
  NoDup entries.*1 →
  (code, example) ∈ entries →
  getResponse operation code = Some response →
  truthy (ex_body example) && negb (truthy (schema response)) = false →
  ex_headers example = Some headers →
  truthy (get headers "content-type") = true
  ∨ truthy (get headers "Content-Type") = true →
  validateXmsExampleResponses operation_validateResponse operation entries
  !! code
  = Some (operation_validateResponse operation
            {| rw_statusCode := code;
               rw_body := ex_body example;
               rw_headers := headers |}).
Proof using Type.
  intros Hnodup Hin Hresponse Hschema Hheaders Hpresent.
  unfold validateXmsExampleResponses.
  rewrite (example_responses_loop_lookup _ _ _ _ _ example) by done.
  unfold validate_example_response. rewrite Hresponse, Hschema, Hheaders.
  cbn. unfold ensure_content_type.
  destruct Hpresent as [-> | ->]; [done |].
  by rewrite orb_true_r.
Qed.

End ExampleResponsesMore.

Section ExampleInSpecResponses.

Import SpecValidator.

Variable operation_validateResponse :
  Operation → ResponseWrapper → ValidationResult.
Variable response_examples : Response → option (list (string * value)).

Abbreviation mime_types_loop' :=
  (mime_types_loop operation_validateResponse).
Abbreviation responses_loop' :=
  (responses_loop operation_validateResponse response_examples).
Abbreviation validateExampleResponses' :=
  (validateExampleResponses operation_validateResponse response_examples).

(** The mime type loop writes one key, the status code of the response,
    and leaves there the validation of the last example. *)
Lemma mime_types_loop_lookup operation response examples result k :
  mime_types_loop' operation response examples result !! k
  = if decide (k = statusCode response) then
      match last examples with
      | Some (mimeType, body) =>
          Some (operation_validateResponse operation
                  {| rw_statusCode := statusCode response;
                     rw_body := body;
                     rw_headers := {[ "content-type" := VStr mimeType ]} |})
      | None => result !! k
      end
    else result !! k.
Proof using Type.
  revert result.
  induction examples as [| [mimeType body] rest IH]; intros result.
  - cbn. by case_decide.
  - cbn [mime_types_loop]. rewrite IH. case_decide as Hk.
    + subst k. destruct rest as [| next rest'].
      * cbn. by rewrite lookup_insert_eq.
      * rewrite last_cons_cons.
        destruct (last (next :: rest')) as [[? ?] |] eqn:Hlast; [done |].
        by apply last_None in Hlast.
    + by rewrite lookup_insert_ne.
Qed.

Lemma responses_loop_is_Some operation responses result k :
  is_Some (responses_loop' operation responses result !! k)
  ↔ is_Some (result !! k)
    ∨ ∃ response examples,
        response ∈ responses
        ∧ statusCode response = k
        ∧ response_examples response = Some examples
        ∧ examples ≠ [].
Proof using Type.
  revert result. induction responses as [| response rest IH]; intros result.
  - cbn. split; [by left |]. intros [? | (r & ex & Hin & _)]; [done |].
    by apply elem_of_nil in Hin.
  - cbn [responses_loop]. rewrite IH. split.
    + intros [Hsome | (r & ex & Hin & Hk & Hex & Hne)].
      * destruct (response_examples response) as [examples |] eqn:Hexamples;
          [| by left].
        rewrite mime_types_loop_lookup in Hsome. case_decide as Hk; [| by left].
        destruct examples as [| e examples]; [by left |].
        right. exists response, (e :: examples).
        split; [by apply elem_of_cons; left | done].
      * right. exists r, ex. split; [by apply elem_of_cons; right | done].
    + intros [Hsome | (r & ex & Hin & Hk & Hex & Hne)].
      * left. destruct (response_examples response) as [examples |]; [| done].
        rewrite mime_types_loop_lookup. case_decide; [| done].
        by destruct (last examples) as [[? ?] |].
      * apply elem_of_cons in Hin as [-> | Hin].
        -- left. rewrite Hex, mime_types_loop_lookup.
           rewrite decide_True by done.
           destruct (last ex) as [[? ?] |] eqn:Hlast; [done |].
           by apply last_None in Hlast.
        -- right. by exists r, ex.
Qed.

(** X11: the result of [validateExampleResponses] has an entry for a
    status code exactly when a declared response with that status code
    carries at least one example; a response whose [examples] object is
    empty gets none. *)
Theorem validateExampleResponses_entries operation k :
  is_Some (validateExampleResponses' operation !! k)
  ↔ ∃ response examples,
      response ∈ getResponses operation
      ∧ statusCode response = k
      ∧ response_examples response = Some examples
      ∧ examples ≠ [].
Proof using Type.
  unfold validateExampleResponses. rewrite responses_loop_is_Some.
  rewrite lookup_empty. split; [| by right].
  intros [[? ?] | ?]; done.
Qed.

Lemma responses_loop_other operation responses result k :
  k ∉ statusCode <$> responses →
  responses_loop' operation responses result !! k = result !! k.
Proof using Type.
  revert result. induction responses as [| response rest IH];
    intros result Hk; [done |].
  cbn [responses_loop]. cbn in Hk. apply not_elem_of_cons in Hk as [Hne Hk].
  rewrite IH by done.
  destruct (response_examples response) as [examples |]; [| done].
  rewrite mime_types_loop_lookup. by rewrite decide_False.
Qed.

(** X12: when a response carries examples for several mime types, the
    entry of its status code is the validation of the last one alone, sent
    with that mime type as its content-type: the results of the earlier
    examples are overwritten. *)
Theorem validateExampleResponses_last_mime_type
    operation response earlier mimeType body :
  NoDup (statusCode <$> getResponses operation) →
  response ∈ getResponses operation →
  response_examples response = Some (earlier ++ [(mimeType, body)]) →
  validateExampleResponses' operation !! statusCode response
  = Some (operation_validateResponse operation
            {| rw_statusCode := statusCode response;
               rw_body := body;
               rw_headers := {[ "content-type" := VStr mimeType ]} |}).
Proof using Type.
  intros Hnodup Hin Hexamples. unfold validateExampleResponses.
  generalize (∅ : gmap string ValidationResult).
  induction (getResponses operation) as [| r rest IH]; intros result.
  - by apply elem_of_nil in Hin.
  - cbn [responses_loop]. cbn in Hnodup.
    apply NoDup_cons in Hnodup as [Hfresh Hnodup].
    apply elem_of_cons in Hin as [<- | Hin].
    + rewrite responses_loop_other by done.
      rewrite Hexamples, mime_types_loop_lookup, decide_True by done.
      by rewrite last_snoc.
    + by apply IH.
Qed.

End ExampleInSpecResponses.

Section XmsExamplesProperties.

Import SpecValidator.

Variable HttpRequest : Type.
Variable prepare : Options → completion HttpRequest.
Variable operation_validateRequest :
  Operation → HttpRequest → completion ValidationResult.
Variable mergeObjects :
  option ValidationResult → ValidationResult → ValidationResult.
Variable operation_validateResponse :
  Operation → ResponseWrapper → ValidationResult.

Abbreviation validateRequest'' :=
  (validateRequest HttpRequest prepare operation_validateRequest mergeObjects).
Abbreviation validateXmsExampleResponses'' :=
  (validateXmsExampleResponses operation_validateResponse).
Abbreviation scenarios_loop' :=
  (scenarios_loop HttpRequest prepare operation_validateRequest mergeObjects
     operation_validateResponse).
Abbreviation validateXmsExamples' :=
  (validateXmsExamples HttpRequest prepare operation_validateRequest
     mergeObjects operation_validateResponse).

(** Whatever [validateRequest] throws comes out of its catch block. *)
Lemma validateRequest_Throw_inv operation vals e :
  validateRequest'' operation vals = Throw e → e = ReferenceError "error".
Proof using Type.
  unfold validateRequest.
  destruct (ls_foundIssues _); cbn [negb]; [discriminate |].
  destruct (prepare _) as [request | err]; cbn; [| by intros [= <-]].
  destruct (operation_validateRequest operation request); cbn;
    [discriminate | by intros [= <-]].
Qed.

(** The loop over the scenarios throws as soon as the request of a
    scenario does, and only then. *)
Lemma scenarios_loop_throws operation examples resultScenarios :
  throws (scenarios_loop' operation examples resultScenarios)
  ↔ Exists (λ entry,
              throws (validateRequest'' operation (ex_parameters entry.2)))
      examples.
Proof using Type.
  revert resultScenarios.
  induction examples as [| [scenario example] rest IH]; intros resultScenarios.
  - cbn. split; [intros [e He]; discriminate | intros Hex; inversion Hex].
  - cbn [scenarios_loop].
    destruct (validateRequest'' operation (ex_parameters example))
      as [r | e] eqn:Hrequest; cbn.
    + rewrite IH. split; [by right |].
      intros Hex. apply Exists_cons in Hex as [[e He] | Hex]; [| done].
      cbn in He. congruence.
    + split; [| intros _; by eexists].
      intros _. left. cbn. rewrite Hrequest. by eexists.
Qed.

Lemma scenarios_loop_Throw_inv operation examples resultScenarios e :
  scenarios_loop' operation examples resultScenarios = Throw e →
  e = ReferenceError "error".
Proof using Type.
  revert resultScenarios.
  induction examples as [| [scenario example] rest IH]; intros resultScenarios;
    [discriminate |].
  cbn [scenarios_loop].
  destruct (validateRequest'' operation (ex_parameters example))
    as [r | e'] eqn:Hrequest; cbn.
  - apply IH.
  - intros [= <-]. by eapply validateRequest_Throw_inv.
Qed.

(** X13: when the request of one of the operation's scenarios makes
    [validateRequest] throw, [validateXmsExamples] throws: nothing catches
    the exception, so the operation is left without any result, the
    scenarios validated before that one included. *)
Theorem validateXmsExamples_propagates_throw operation examples :
  xmsExamples operation = Some examples →
  Exists (λ entry,
            throws (validateRequest'' operation (ex_parameters entry.2)))
    examples →
  throws (validateXmsExamples' operation).
Proof using Type.
  intros Hexamples Hex. unfold validateXmsExamples. rewrite Hexamples.
  apply (scenarios_loop_throws operation examples ∅) in Hex as [e He].
  rewrite He. by eexists.
Qed.



End XmsExamplesProperties.

Section OperationSelection.

Import SpecValidator.

Lemma List_filter_sublist {A} (f : A → bool) (l : list A) :
  sublist (List.filter f l) l.
Proof.
  induction l as [| x l IH]; cbn; [constructor |].
  destruct (f x); by constructor.
Qed.

(** Reading [operationIdsObj] under an operation id is truthy exactly when
    the id is one of the trimmed items or a name that every plain object
    inherits. *)
Lemma operationIdsObj_truthy (items : list string) (k : string) :
  truthy (get (list_to_map ((λ item, (Text.trim item, VNum 1)) <$> items)) k)
  = true
  ↔ k ∈ Text.trim <$> items ∨ k ∈ Object_prototype.
Proof.
  unfold get.
  destruct (list_to_map _ !! k) as [v |] eqn:Hlookup.
  - apply elem_of_list_to_map_2 in Hlookup.
    apply list_elem_of_fmap in Hlookup as (item & [= -> ->] & Hitem).
    split; [| done]. intros _. left. apply list_elem_of_fmap. by exists item.
  - apply not_elem_of_list_to_map_2 in Hlookup.
    rewrite <- list_fmap_compose in Hlookup.
    case_bool_decide as Hinherited.
    + split; [by right | done].
    + split; [done |]. by intros [Hin | Hin].
Qed.

(** X15: on an initialized validator, [validateOperations] selects a
    sublist of the operations of the spec, in their order. An operation
    counts as named when its operationId is one of the comma separated
    [operationIds], each item trimmed, or is a property name that every
    plain object inherits (constructor, toString and the like). When at
    least one operation of the spec counts as named, exactly those are
    selected; otherwise (no [operationIds], or none of them known) every
    operation is, so the selection is empty only for a spec without
    operations. *)
Theorem validateOperations_operations_selection
    self operations operationIds :
  swaggerApi self = Some operations →
  let listed (operation : Operation) :=
    ∃ ids, operationIds = Some ids
           ∧ ids ≠ EmptyString
           ∧ (operationId operation
              ∈ Text.trim <$> Text.split Text.comma (Text.trim ids)
              ∨ operationId operation ∈ Object_prototype) in
  ∃ selected,
    validateOperations_operations self operationIds = Return selected
    ∧ sublist selected operations
    ∧ (selected = [] → operations = [])
    ∧ (Exists listed operations →
       ∀ operation,
         operation ∈ selected ↔ operation ∈ operations ∧ listed operation)
    ∧ (¬ Exists listed operations → selected = operations).
Proof.
  intros Hapi listed. unfold validateOperations_operations. rewrite Hapi.
  destruct operationIds as [ids |];
    [destruct ids as [| c ids0] |]; cbn [truthy].
  - eexists. split; [reflexivity |]. split; [done |]. split; [done |].
    split; [| done]. intros Hex. apply Exists_exists in Hex
      as (op & _ & ids' & [= <-] & Hne & _). done.
  - set (ids := String c ids0).
    set (f := λ item : Operation,
           truthy
             (get (list_to_map
                     ((λ item, (Text.trim item, VNum 1))
                        <$> Text.split Text.comma (Text.trim ids)))
                (operationId item))).
    assert (Hf : ∀ op, f op = true ↔ listed op).
    { intros op. unfold f. rewrite operationIdsObj_truthy.
      split; [intros Hin; by exists ids |].
      by intros (ids' & [= <-] & _ & Hin). }
    eexists. split; [reflexivity |].
    destruct (List.filter f operations) as [| op ops] eqn:Hfilter; cbn.
    + split; [done |]. split; [done |]. split; [| done].
      intros Hex. apply Exists_exists in Hex as (op & Hin & Hlisted).
      apply Hf in Hlisted. apply list_elem_of_In in Hin.
      assert (In op (List.filter f operations)) as Hin'
        by (apply filter_In; done).
      rewrite Hfilter in Hin'. destruct Hin'.
    + rewrite <- Hfilter. split; [apply List_filter_sublist |].
      split; [by rewrite Hfilter |]. split.
      * intros _ operation. rewrite list_elem_of_In, filter_In.
        by rewrite <- list_elem_of_In, Hf.
      * intros Hnone. exfalso. apply Hnone. apply Exists_exists.
        exists op. assert (In op (List.filter f operations)) as Hin
          by (rewrite Hfilter; by left).
        apply filter_In in Hin as [Hin Hop].
        split; [by apply list_elem_of_In | by apply Hf].
  - eexists. split; [reflexivity |]. split; [done |]. split; [done |].
    split; [| done]. intros Hex. apply Exists_exists in Hex
      as (op & _ & ids' & [=] & _).
Qed.

End OperationSelection.

(** ** Properties of the commands and of the constructor *)

Section TextProperties.

Lemma to_lower_empty s : Text.to_lower s = EmptyString → s = EmptyString.
Proof. by destruct s. Qed.

Lemma prefix_ci_spec pattern s :
  Text.prefix_ci pattern s = true
  ↔ ∃ mid rest, s = mid +:+ rest
                ∧ Text.to_lower mid = Text.to_lower pattern.
Proof.
  revert s. induction pattern as [| p pattern IH]; intros s.
  - cbn. split; [| done]. intros _. by exists EmptyString, s.
  - destruct s as [| c s]; cbn.
    + split; [done |]. intros (mid & rest & Hs & Hmid).
      destruct mid; cbn in *; discriminate.
    + rewrite andb_true_iff, Ascii.eqb_eq, IH. split.
      * intros (Hc & mid & rest & -> & Hmid).
        exists (String c mid), rest. cbn. by rewrite Hmid, Hc.
      * intros (mid & rest & Hs & Hmid).
        destruct mid as [| c' mid]; cbn in *; [discriminate |].
        injection Hs as <- ->. injection Hmid as Hc Hmid.
        split; [done |]. by exists mid, rest.
Qed.

Lemma contains_ci_spec pattern s :
  Text.contains_ci pattern s = true
  ↔ ∃ before mid after, s = before +:+ mid +:+ after
                        ∧ Text.to_lower mid = Text.to_lower pattern.
Proof.
  induction s as [| c s IH].
  - cbn. rewrite orb_false_r, prefix_ci_spec. split.
    + intros (mid & rest & Hs & Hmid). by exists EmptyString, mid, rest.
    + intros (before & mid & after & Hs & Hmid).
      destruct before; cbn in Hs; [| discriminate]. by exists mid, after.
  - cbn [Text.contains_ci]. rewrite orb_true_iff, prefix_ci_spec, IH. split.
    + intros [(mid & rest & Hs & Hmid) | (before & mid & after & -> & Hmid)].
      * by exists EmptyString, mid, rest.
      * by exists (String c before), mid, after.
    + intros (before & mid & after & Hs & Hmid).
      destruct before as [| c' before]; cbn in Hs.
      * left. by exists mid, after.
      * injection Hs as <- ->. right. by exists before, mid, after.
Qed.

Lemma trimStart_blank s : Text.blank (Text.trimStart s) = Text.blank s.
Proof.
  induction s as [| c s IH]; [done |]. cbn.
  destruct (Text.is_whitespace c) eqn:Hc; cbn; [done | by rewrite Hc].
Qed.

Lemma trimEnd_empty s :
  Text.trimEnd s = EmptyString ↔ Text.blank s = true.
Proof.
  induction s as [| c s IH]; [done |]. cbn.
  destruct (Text.trimEnd s) as [| c' s'].
  - destruct IH as [IH _]. rewrite (IH eq_refl), andb_true_r.
    by destruct (Text.is_whitespace c).
  - split; [done |]. intros Hblank. apply andb_true_iff in Hblank as [_ Hblank].
    apply IH in Hblank. discriminate.
Qed.

Lemma trim_empty s : Text.trim s = EmptyString ↔ Text.blank s = true.
Proof. unfold Text.trim. by rewrite trimEnd_empty, trimStart_blank. Qed.

Lemma trim_length_zero s :
  Nat.eqb (String.length (Text.trim s)) 0 = Text.blank s.
Proof.
  destruct (Text.blank s) eqn:Hblank.
  - apply trim_empty in Hblank. by rewrite Hblank.
  - destruct (Text.trim s) eqn:Htrim; [| done].
    apply trim_empty in Htrim. congruence.
Qed.

End TextProperties.

Section CommandProperties.

Import Commands.

(** X16: the three commands treat a spec path as a composite spec exactly
    when the word composite occurs in it, in any letter case and anywhere
    (a directory name included); for such a path live-test and
    validate-example both call [validateExamplesInCompositeSpec] with the
    path alone, so the operationIds given on the command line are
    dropped. *)
Theorem handlers_dispatch_on_composite specPath operationIds :
  let composite :=
    ∃ before mid after,
      specPath = before +:+ mid +:+ after
      ∧ Text.to_lower mid = "composite" in
  (composite →
   live_test_handler specPath operationIds
   = validateExamplesInCompositeSpec specPath
   ∧ validate_example_handler specPath operationIds
     = validateExamplesInCompositeSpec specPath
   ∧ validate_spec_handler specPath = validateCompositeSpec specPath)
  ∧ (¬ composite →
     live_test_handler specPath operationIds = liveTest specPath operationIds
     ∧ validate_example_handler specPath operationIds
       = validateExamples specPath operationIds
     ∧ validate_spec_handler specPath = validateSpec specPath).
Proof.
  intros composite.
  unfold live_test_handler, validate_example_handler, validate_spec_handler.
  pose proof (contains_ci_spec "composite" specPath) as Hspec.
  change (Text.to_lower "composite") with "composite" in Hspec.
  fold composite in Hspec. unfold is_composite.
  destruct (Text.contains_ci "composite" specPath).
  - split; [done |]. intros Hnot. exfalso. apply Hnot. by apply Hspec.
  - split; [| done]. intros Hcomposite. apply Hspec in Hcomposite.
    discriminate.
Qed.

End CommandProperties.

Section ConstructorProperties.

Import SpecValidator.

(** X17: the constructor rejects exactly an absent path and a path made of
    whitespace only (the empty string included); every other path gives an
    instance. *)
Theorem new_SpecValidator_throws_iff specPath' :
  throws (new_SpecValidator specPath')
  ↔ specPath' = None
    ∨ ∃ path, specPath' = Some path ∧ Text.blank path = true.
Proof.
  unfold new_SpecValidator. destruct specPath' as [path |].
  - rewrite trim_length_zero. destruct (Text.blank path) eqn:Hblank.
    + split; [| intros _; by eexists]. intros _. right. by exists path.
    + split; [intros [e He]; discriminate |].
      intros [? | (path' & [= <-] & Hblank')]; congruence.
  - split; [by left | intros _; by eexists].
Qed.

(** X18: an instance fresh from the constructor is not initialized:
    [getOperationById] and [validateOperations] throw on it whatever their
    argument, while [getXmsExamples] of an operation object, which does not
    consult the spec, returns the x-ms-examples of the operation. *)
Theorem new_SpecValidator_is_uninitialized specPath' self :
  new_SpecValidator specPath' = Return self →
  (∀ id, throws (getOperationById self id))
  ∧ (∀ operationIds, throws (validateOperations_operations self operationIds))
  ∧ ∀ operation,
      getXmsExamples self (ArgObj operation) = Return (xmsExamples operation).
Proof.
  unfold new_SpecValidator. destruct specPath' as [path |]; [| discriminate].
  destruct (Nat.eqb _ _); [discriminate |]. intros [= <-].
  split; [| split].
  - intros id. by eexists.
  - intros operationIds. by eexists.
  - done.
Qed.

Lemma first_line_single_line s :
  Text.single_line s = true → Text.first_line s = (s, EmptyString).
Proof.
  induction s as [| c s IH]; [done |]. cbn.
  destruct (Text.is_line_terminator c); cbn; [done |].
  intros Hs. by rewrite (IH Hs).
Qed.

Lemma single_line_app a b :
  Text.single_line (a +:+ b) = Text.single_line a && Text.single_line b.
Proof.
  induction a as [| c a IH]; [done |].
  change (String c a +:+ b) with (String c (a +:+ b)).
  cbn [Text.single_line]. by rewrite IH, andb_assoc.
Qed.

Lemma split_last_ci_absent pattern s :
  Text.contains_ci pattern s = false → Text.split_last_ci pattern s = None.
Proof.
  induction s as [| c s IH]; cbn.
  - rewrite orb_false_r. by intros ->.
  - intros Hnone. apply orb_false_iff in Hnone as [Hprefix Hrest].
    rewrite (IH Hrest). cbn in Hprefix. by rewrite Hprefix.
Qed.

(** The last [blob/] of a line is the one that nothing containing
    [blob/] follows. *)
Lemma split_last_ci_blob repo path :
  Text.contains_ci "blob/" path = false →
  Text.split_last_ci "blob/" (repo +:+ "blob/" +:+ path) = Some (repo, path).
Proof.
  intros Hpath. apply split_last_ci_absent in Hpath.
  induction repo as [| c repo IH].
  - cbv [String.append]. cbn. by rewrite Hpath.
  - change (String c repo +:+ "blob/" +:+ path)
      with (String c (repo +:+ "blob/" +:+ path)).
    cbn [Text.split_last_ci]. by rewrite IH.
Qed.

Lemma string_app_empty s : s +:+ EmptyString = s.
Proof.
  induction s as [| c s IH]; [done |].
  change (String c s +:+ EmptyString) with (String c (s +:+ EmptyString)).
  by rewrite IH.
Qed.

Lemma prefix_ci_app pattern rest :
  Text.prefix_ci pattern (pattern +:+ rest) = true.
Proof.
  induction pattern as [| c pattern IH]; [done |].
  change (String c pattern +:+ rest) with (String c (pattern +:+ rest)).
  cbn [Text.prefix_ci]. by rewrite IH, Ascii.eqb_refl.
Qed.

Lemma replace_github_blob_url repo path :
  Text.single_line repo = true →
  Text.single_line path = true →
  Text.contains_ci "blob/" path = false →
  replace_github_blob ("https://github.com" +:+ repo +:+ "blob/" +:+ path)
  = "https://raw.githubusercontent.com" +:+ repo +:+ path.
Proof.
  intros Hrepo Hpath Hblob. unfold replace_github_blob.
  rewrite first_line_single_line.
  - set (rest := repo +:+ "blob/" +:+ path).
    change ("https://github.com" +:+ rest)
      with ("https://github"
            +:+ String (Ascii.ascii_of_nat 46) ("com" +:+ rest)).
    rewrite prefix_ci_app.
    change (Text.drop 14
              ("https://github"
               +:+ String (Ascii.ascii_of_nat 46) ("com" +:+ rest)))
      with (String (Ascii.ascii_of_nat 46) ("com" +:+ rest)).
    cbv beta iota. rewrite prefix_ci_app.
    change (Text.drop 3 ("com" +:+ rest)) with rest.
    subst rest. rewrite split_last_ci_blob by done.
    by rewrite string_app_empty.
  - change ("https://github.com" +:+ repo +:+ "blob/" +:+ path)
      with ("https://github.com" +:+ (repo +:+ ("blob/" +:+ path))).
    rewrite !single_line_app, Hrepo, Hpath. reflexivity.
Qed.

(** X19: a github url of a file, [https://github.com], a repository part,
    [blob/] and a path that does not contain [blob/] again, is stored as
    the raw.githubusercontent.com url of the file, the [blob/] removed.
    The repository part is arbitrary: when [blob/] occurs more than once
    it is the last occurrence that goes. *)
Theorem new_SpecValidator_github_blob_url repo path :
  Text.single_line repo = true →
  Text.single_line path = true →
  Text.contains_ci "blob/" path = false →
  new_SpecValidator
    (Some ("https://github.com" +:+ repo +:+ "blob/" +:+ path))
  = Return {| specPath := "https://raw.githubusercontent.com" +:+ repo +:+ path;
              swaggerApi := None |}.
Proof.
  intros Hrepo Hpath Hblob. unfold new_SpecValidator.
  rewrite trim_length_zero.
  change (Text.blank ("https://github.com" +:+ repo +:+ "blob/" +:+ path))
    with false.
  replace (String.prefix "https://github"
             ("https://github.com" +:+ repo +:+ "blob/" +:+ path))
    with true by reflexivity.
  by rewrite replace_github_blob_url.
Qed.

(** X20: constructing a validator from the path that a validator stores
    gives the same instance again: the rewriting of github urls is
    idempotent, a rewritten url is not rewritten a second time. *)
Theorem new_SpecValidator_idempotent path self :
  new_SpecValidator (Some path) = Return self →
  new_SpecValidator (Some (specPath self)) = Return self.
Proof.
  unfold new_SpecValidator. rewrite trim_length_zero.
  destruct (Text.blank path) eqn:Hblank; [discriminate |].
  destruct (String.prefix "https://github" path) eqn:Hprefix.
  - unfold replace_github_blob.
    assert (Hsame :
      (if Nat.eqb (String.length (Text.trim path)) 0
       then Throw (Error "specPath is a required parameter of type string and it cannot be an empty string.")
       else Return {| specPath :=
                        if String.prefix "https://github" path
                        then replace_github_blob path else path;
                      swaggerApi := None |})
      = Return {| specPath := replace_github_blob path;
                  swaggerApi := None |}).
    { by rewrite trim_length_zero, Hblank, Hprefix. }
    destruct (Text.first_line path) as [line tail] eqn:Hline.
    destruct (Text.prefix_ci "https://github" line) eqn:Hgithub;
      [| intros [= <-]; cbn [specPath];
         by rewrite trim_length_zero, Hblank, Hprefix;
         unfold replace_github_blob; rewrite Hline, Hgithub].
    destruct (Text.drop 14 line) as [| dot after_dot] eqn:Hdrop;
      [intros [= <-]; cbn [specPath];
       by rewrite trim_length_zero, Hblank, Hprefix;
       unfold replace_github_blob; rewrite Hline, Hgithub, Hdrop |].
    destruct (Text.prefix_ci "com" after_dot) eqn:Hcom;
      [| intros [= <-]; cbn [specPath];
         by rewrite trim_length_zero, Hblank, Hprefix;
         unfold replace_github_blob; rewrite Hline, Hgithub, Hdrop, Hcom].
    destruct (Text.split_last_ci "blob/" (Text.drop 3 after_dot))
      as [[group2 group3] |] eqn:Hsplit;
      [| intros [= <-]; cbn [specPath];
         by rewrite trim_length_zero, Hblank, Hprefix;
         unfold replace_github_blob;
         rewrite Hline, Hgithub, Hdrop, Hcom, Hsplit].
    intros [= <-]. cbn [specPath]. rewrite trim_length_zero. reflexivity.
  - intros [= <-]. cbn [specPath].
    by rewrite trim_length_zero, Hblank, Hprefix.
Qed.

End ConstructorProperties.

Section FurtherWitnesses.

Import SpecValidator Examples MoreExamples.


Lemma parameter_loop_ignores_other_locations_witness :
  parameter_loop op_upload upload_values (getParameters op_upload)
    (initial_state op_upload)
  = parameter_loop op_upload upload_values
      [param "api-version" "query" true; param "comment" "header" false]
      (initial_state op_upload).
Proof.
  apply (parameter_loop_ignores_other_locations op_upload upload_values
           [param "api-version" "query" true]
           (param "file" "formData" true)
           [param "comment" "header" false]).
  - compute_done.
  - left. reflexivity.
Defined.

Lemma validateRequest_all_parameters_supplied_witness :
  validateRequest unit prepare_ok request_valid mergeObjects_overwrite
    op_two_required all_supplied
  = Return {| request := Some tt;
              validationResult := {| errors := []; warnings := [] |} |}.
Proof.
  apply (validateRequest_all_parameters_supplied unit prepare_ok
           request_valid mergeObjects_overwrite op_two_required all_supplied
           tt {| errors := []; warnings := [] |}).
  - constructor; [left; reflexivity |].
    constructor; [left; reflexivity |].
    constructor; [right; reflexivity | constructor].
  - reflexivity.
  - reflexivity.
Defined.

Lemma getOperationById_first_match_witness :
  ∃ found,
    getOperationById initialized "StorageAccounts_Create" = Return found
    ∧ match found with
      | Some operation =>
          operationId operation = "StorageAccounts_Create"
          ∧ ∃ before after,
              [op_storage_accounts_get; op_two_required]
              = before ++ operation :: after
              ∧ Forall (λ other,
                          operationId other ≠ "StorageAccounts_Create")
                  before
      | None =>
          Forall (λ other, operationId other ≠ "StorageAccounts_Create")
            [op_storage_accounts_get; op_two_required]
      end.
Proof.
  apply (getOperationById_first_match initialized
           [op_storage_accounts_get; op_two_required]
           "StorageAccounts_Create").
  - reflexivity.
  - discriminate.
Defined.

Lemma typed_example_responses_NoDup : NoDup typed_example_responses.*1.
Proof. compute_done. Qed.

Lemma validateXmsExampleResponses_keeps_content_type_witness :
  validateXmsExampleResponses response_valid op_storage_accounts_get
    typed_example_responses !! "200"
  = Some (response_valid op_storage_accounts_get
            {| rw_statusCode := "200";
               rw_body := VObj [("name", VStr "acc")];
               rw_headers := {[ "Content-Type" := VStr "text/json" ]} |}).
Proof.
  refine (validateXmsExampleResponses_keeps_content_type response_valid
            op_storage_accounts_get typed_example_responses "200"
            {| ex_headers := Some {[ "Content-Type" := VStr "text/json" ]};
               ex_body := VObj [("name", VStr "acc")] |}
            {| statusCode := "200"; schema := VObj [("type", VStr "object")] |}
            {[ "Content-Type" := VStr "text/json" ]}
            typed_example_responses_NoDup _ _ _ _ _).
  - apply list_elem_of_In. left. reflexivity.
  - reflexivity.
  - reflexivity.
  - reflexivity.
  - right. reflexivity.
Defined.

Lemma sample_status_codes_NoDup :
  NoDup (statusCode <$> getResponses op_storage_accounts_get).
Proof. compute_done. Qed.

Lemma validateExampleResponses_last_mime_type_witness :
  validateExampleResponses response_valid sample_response_examples
    op_storage_accounts_get !! "200"
  = Some (response_valid op_storage_accounts_get
            {| rw_statusCode := "200";
               rw_body := VObj [("name", VStr "other")];
               rw_headers := {[ "content-type" := VStr "text/json" ]} |}).
Proof.
  refine (validateExampleResponses_last_mime_type response_valid
            sample_response_examples op_storage_accounts_get
            {| statusCode := "200"; schema := VObj [("type", VStr "object")] |}
            [("application/json", VObj [("name", VStr "acc")])]
            "text/json" (VObj [("name", VStr "other")])
            sample_status_codes_NoDup _ _).
  - apply list_elem_of_In. left. reflexivity.
  - reflexivity.
Defined.


Lemma validateOperations_operations_selection_witness :
  ∃ selected,
    validateOperations_operations initialized
      (Some "StorageAccounts_Create, Usages_List")
    = Return selected
    ∧ sublist selected [op_storage_accounts_get; op_two_required]
    ∧ (selected = [] → [op_storage_accounts_get; op_two_required] = []).
Proof.
  destruct (validateOperations_operations_selection initialized
              [op_storage_accounts_get; op_two_required]
              (Some "StorageAccounts_Create, Usages_List") eq_refl)
    as (selected & Hselected & Hsub & Hempty & _).
  exists selected. split; [exact Hselected | split; [exact Hsub | exact Hempty]].
Defined.

(** The documented way of writing the ids, separated by a comma and a
    space, selects the operations named. *)
Example validateOperations_operations_documented_format :
  validateOperations_operations initialized
    (Some "StorageAccounts_Create, Usages_List")
  = Return [op_two_required].
Proof. reflexivity. Qed.

Lemma new_SpecValidator_is_uninitialized_witness :
  throws (getOperationById {| specPath := "storage.json"; swaggerApi := None |}
            "StorageAccounts_Create").
Proof.
  apply (proj1 (new_SpecValidator_is_uninitialized (Some "storage.json")
                  {| specPath := "storage.json"; swaggerApi := None |}
                  eq_refl)).
Defined.

Lemma new_SpecValidator_github_blob_url_witness :
  new_SpecValidator
    (Some ("https://github.com" +:+ "/Azure/azure-rest-api-specs/"
           +:+ "blob/" +:+ "master/arm-storage/2016-01-01/swagger/storage.json"))
  = Return
      {| specPath :=
           "https://raw.githubusercontent.com"
           +:+ "/Azure/azure-rest-api-specs/"
           +:+ "master/arm-storage/2016-01-01/swagger/storage.json";
         swaggerApi := None |}.
Proof.
  apply (new_SpecValidator_github_blob_url "/Azure/azure-rest-api-specs/"
           "master/arm-storage/2016-01-01/swagger/storage.json");
    reflexivity.
Defined.

Lemma new_SpecValidator_idempotent_witness :
  new_SpecValidator
    (Some "https://raw.githubusercontent.com/Azure/specs/master/storage.json")
  = Return
      {| specPath :=
           "https://raw.githubusercontent.com/Azure/specs/master/storage.json";
         swaggerApi := None |}.
Proof.
  apply (new_SpecValidator_idempotent
           "https://github.com/Azure/specs/blob/master/storage.json"
           {| specPath :=
                "https://raw.githubusercontent.com/Azure/specs/master/storage.json";
              swaggerApi := None |}).
  reflexivity.
Defined.

End FurtherWitnesses.

(** ** Falsy example values, argument guards and undeclared cases *)

Section FalsyValues.

Import SpecValidator.

Variable HttpRequest : Type.
Variable prepare : Options → completion HttpRequest.
Variable operation_validateRequest :
  Operation → HttpRequest → completion ValidationResult.
Variable mergeObjects :
  option ValidationResult → ValidationResult → ValidationResult.

Abbreviation validateRequest_ :=
  (validateRequest HttpRequest prepare operation_validateRequest mergeObjects).

(** An optional parameter without a truthy value can be struck from the
    declaration: the loop ends in the same state. *)
Lemma parameter_loop_optional_falsy operation vals before p after st :
  truthy (get vals (name p)) = false →
  required p = false →
  parameter_loop operation vals (before ++ p :: after) st
  = parameter_loop operation vals (before ++ after) st.
Proof using Type.
  intros Hfalsy Hoptional. revert st.
  induction before as [| q before IH]; intros st.
  - cbn [app parameter_loop]. by rewrite Hfalsy, Hoptional.
  - cbn [app parameter_loop].
    destruct (truthy (get vals (name q))); cbn [negb].
    + apply IH.
    + destruct (required q); [done | apply IH].
Qed.

(** C9 (amended): take a declared parameter that the loop reaches and for
    which the example has a falsy value: null, the empty string, 0, false,
    or no value at all under a name that plain objects do not inherit.
    Dropping its key from the example (for such a name) leaves the outcome
    of [validateRequest] as it is. If the parameter is required, the call
    returns the result holding the one missing-required-parameter error
    for it and no request. If it is optional, the loop ends as if the
    parameter were not declared, and the call returns what preparing and
    validating the request built from the other parameters alone give. *)
Theorem validateRequest_falsy_value_as_absent
    operation vals before p after :
  (∀ target, mergeObjects None target = target) →
  getParameters operation = before ++ p :: after →
  Forall (λ q, truthy (get vals (name q)) = true ∨ required q = false) before →
  truthy (get vals (name p)) = false →
  Forall (λ v, truthy v = false)
    [VUndefined; VNull; VStr EmptyString; VNum 0; VBool false]
  ∧ (name p ∉ Object_prototype →
     validateRequest_ operation (delete (name p) vals)
     = validateRequest_ operation vals)
  ∧ (required p = true →
     validateRequest_ operation vals
     = Return
         {| request := None;
            validationResult :=
              {| errors :=
                   [constructErrorObject RequiredParameterExampleNotFound
                      (missing_parameter_message operation p) []];
                 warnings := [] |} |})
  ∧ (required p = false →
     let st :=
       parameter_loop operation vals (before ++ after)
         (initial_state operation) in
     parameter_loop operation vals (getParameters operation)
       (initial_state operation) = st
     ∧ ∀ request vr,
         ls_foundIssues st = false →
         prepare (ls_options st) = Return request →
         operation_validateRequest operation request = Return vr →
         validateRequest_ operation vals
         = Return
             {| request := Some request;
                validationResult :=
                  mergeObjects (Some vr)
                    {| errors := []; warnings := [] |} |}).
Proof using Type.
  intros Hmerge Hparams Hbefore Hfalsy. split; [| split; [| split]].
  - repeat constructor.
  - intros Hname. unfold validateRequest.
    by rewrite parameter_loop_delete_falsy.
  - intros Hrequired. unfold validateRequest. rewrite Hparams.
    destruct (parameter_loop_skip operation vals before (p :: after)
                (initial_state operation) Hbefore) as [o ->].
    cbn [parameter_loop]. rewrite Hfalsy, Hrequired. cbn.
    by rewrite Hmerge.
  - intros Hoptional st.
    assert (Hloop :
      parameter_loop operation vals (getParameters operation)
        (initial_state operation) = st).
    { rewrite Hparams. by apply parameter_loop_optional_falsy. }
    split; [done |]. intros request vr Hfound Hprepare Hvalidate.
    unfold validateRequest. rewrite Hloop, Hfound. cbn [negb].
    rewrite Hprepare. cbn. rewrite Hvalidate. cbn.
    destruct (parameter_loop_issues operation vals (before ++ after)
                (initial_state operation) eq_refl)
      as [(_ & Herrors & _) | (Hfound' & _)].
    + fold st in Herrors. by rewrite Herrors.
    + fold st in Hfound'. congruence.
Qed.

Abbreviation validateRequest_entry' :=
  (validateRequest_entry HttpRequest prepare operation_validateRequest
     mergeObjects).

(** X5: [validateRequest] throws exactly when one of its arguments is
    null, undefined or not an object, or when its loop found no issue and
    request preparation, or sway's validation of the prepared request,
    throws. In the first case it throws the Error of the guard concerned;
    in the second it throws the ReferenceError of its own catch block,
    never the collaborator's exception. *)
Theorem validateRequest_throws_iff operation exampleParameterValues :
  (throws (validateRequest_entry' operation exampleParameterValues)
   ↔ operation = None
     ∨ exampleParameterValues = None
     ∨ ∃ operation' vals,
         operation = Some operation'
         ∧ exampleParameterValues = Some vals
         ∧ let st :=
             parameter_loop operation' vals (getParameters operation')
               (initial_state operation') in
           ls_foundIssues st = false
           ∧ (throws (prepare (ls_options st))
              ∨ ∃ request,
                  prepare (ls_options st) = Return request
                  ∧ throws (operation_validateRequest operation' request)))
  ∧ ∀ e,
      validateRequest_entry' operation exampleParameterValues = Throw e →
      match operation, exampleParameterValues with
      | None, _ => e = Error operation_guard_message
      | Some operation', None =>
          e = Error (exampleParameterValues_guard_message operation')
      | Some _, Some _ => e = ReferenceError "error"
      end.
Proof using Type.
  unfold validateRequest_entry.
  destruct operation as [operation' |];
    [| split; [split; [by left | intros _; by eexists] | by intros e [= <-]]].
  destruct exampleParameterValues as [vals |];
    [| split; [split; [by right; left | intros _; by eexists]
              | by intros e [= <-]]].
  unfold validateRequest.
  set (st := parameter_loop operation' vals (getParameters operation')
               (initial_state operation')).
  destruct (ls_foundIssues st) eqn:Hfound; cbn [negb].
  - split.
    + split; [intros [e He]; cbn in He; discriminate |].
      intros [? | [? | (op & vs & [= <-] & [= <-] & Hst)]]; try discriminate.
      fold st in Hst. destruct Hst as [Hst _]. congruence.
    + intros e He. cbn in He. discriminate.
  - destruct (prepare (ls_options st)) as [request | err] eqn:Hprep.
    + cbn. destruct (operation_validateRequest operation' request)
        as [vr | err] eqn:Hval; cbn.
      * split.
        -- split; [intros [e He]; discriminate |].
           intros [? | [? | (op & vs & [= <-] & [= <-] & Hst)]];
             try discriminate.
           fold st in Hst. rewrite Hprep in Hst.
           destruct Hst as [_ [[e He] | (request' & [= <-] & [e He])]];
             [discriminate | congruence].
        -- intros e He. discriminate.
      * split.
        -- split; [| intros _; by eexists].
           intros _. right. right. exists operation', vals.
           split; [done |]. split; [done |]. fold st. rewrite Hprep.
           split; [done |]. right. exists request.
           split; [done | by eexists].
        -- by intros e [= <-].
    + cbn. split.
      * split; [| intros _; by eexists].
        intros _. right. right. exists operation', vals.
        split; [done |]. split; [done |]. fold st. rewrite Hprep.
        split; [done |]. left. by eexists.
      * by intros e [= <-].
Qed.

End FalsyValues.

Section CorrectionWitnesses.

Import SpecValidator Examples MoreExamples.

(** The optional [filter] has the value 0: the request is prepared from
    the two other parameters alone, and no error is recorded. *)
Lemma validateRequest_falsy_value_as_absent_witness :
  validateRequest Options prepare_options request_accepted
    mergeObjects_overwrite op_two_required zero_filter
  = Return
      {| request :=
           Some (ls_options
                   (parameter_loop op_two_required zero_filter
                      [param "accountName" "path" true;
                       param "api-version" "query" true]
                      (initial_state op_two_required)));
         validationResult := {| errors := []; warnings := [] |} |}.
Proof.
  refine (proj2 (proj2 (proj2 (proj2
            (validateRequest_falsy_value_as_absent Options prepare_options
               request_accepted mergeObjects_overwrite op_two_required
               zero_filter
               [param "accountName" "path" true;
                param "api-version" "query" true]
               (param "filter" "query" false) [] _ _ _ _))) _) _ _ _ _ _).
  - intros target. reflexivity.
  - reflexivity.
  - constructor; [left; reflexivity |].
    constructor; [left; reflexivity | constructor].
  - reflexivity.
  - reflexivity.
  - reflexivity.
  - reflexivity.
  - reflexivity.
Defined.

(** C9, as stated, fails: the required parameter [constructor] has no
    value in the example, yet no error is recorded for it. The lookup
    finds what every object inherits under that name, the loop finds no
    issue, and the request is prepared with that value as the query
    parameter. *)
Lemma validateRequest_inherited_name_not_missing :
  let p := param "constructor" "query" true in
  p ∈ getParameters op_constructor
  ∧ required p = true
  ∧ (∅ : gmap string value) !! name p = None
  ∧ validateRequest Options prepare_options request_accepted
      mergeObjects_overwrite op_constructor ∅
    = Return
        {| request :=
             Some {| o_method := "GET";
                     o_pathTemplate := "/types";
                     o_pathParameters := None;
                     o_queryParameters :=
                       Some {[ "constructor"
                               := Plain (VInherited "constructor") ]};
                     o_body := None;
                     o_disableJsonStringifyOnBody := false;
                     o_headers := None |};
           validationResult := {| errors := []; warnings := [] |} |}.
Proof.
  intros p. split; [apply list_elem_of_In; left; reflexivity |].
  split; [reflexivity |]. split; reflexivity.
Qed.

(** C8, as stated, fails: the example supplies the body [false] for the
    204 response, which declares no schema, and the result holds no
    ResponseSchemaNotInSpec error: the body reaches the validator. *)
Lemma validateXmsExampleResponses_falsy_body_unreported :
  getResponse op_storage_accounts_get "204"
  = Some {| statusCode := "204"; schema := VUndefined |}
  ∧ ("204", {| ex_headers := None; ex_body := VBool false |})
    ∈ falsy_body_responses
  ∧ validateXmsExampleResponses response_probe op_storage_accounts_get
      falsy_body_responses !! "204"
    = Some (response_probe op_storage_accounts_get
              {| rw_statusCode := "204";
                 rw_body := VBool false;
                 rw_headers :=
                   {[ "content-type" := VStr "application/json" ]} |})
  ∧ ¬ ∃ r e,
        validateXmsExampleResponses response_probe op_storage_accounts_get
          falsy_body_responses !! "204" = Some r
        ∧ e ∈ errors r
        ∧ code e = ResponseSchemaNotInSpec.
Proof.
  split; [reflexivity |].
  split; [apply list_elem_of_In; left; reflexivity |].
  split; [reflexivity |].
  intros (r & e & Hr & He & _).
  change (validateXmsExampleResponses response_probe op_storage_accounts_get
            falsy_body_responses !! "204")
    with (Some (response_probe op_storage_accounts_get
                  {| rw_statusCode := "204";
                     rw_body := VBool false;
                     rw_headers :=
                       {[ "content-type" := VStr "application/json" ]} |}))
    in Hr.
  injection Hr as <-. cbn in He. by apply elem_of_nil in He.
Qed.

Lemma validateXmsExamples_propagates_throw_witness :
  throws (validateXmsExamples unit prepare_sample request_valid
            mergeObjects_overwrite response_valid op_job_scenarios).
Proof.
  eapply (validateXmsExamples_propagates_throw unit prepare_sample
            request_valid mergeObjects_overwrite response_valid
            op_job_scenarios).
  - reflexivity.
  - right. left. eexists. reflexivity.
Defined.

End CorrectionWitnesses.

Section LiveCorrectionWitnesses.

Import LiveValidator LiveExamples LiveMoreExamples.

(** C3, as stated, fails: the 404 is not declared, a default response is,
    and the response does not validate with zero errors, because its body
    violates the schema of the default response. *)
Lemma validateResponse_error_status_invalid_body :
  responses Errors_Get !! "404" = None
  ∧ responses Errors_Get !! "default" = Some strict_default
  ∧ status_number "404" = Some 404%N
  ∧ code <$> errors (validateResponse (list ErrorCode) ErrorCode
                       sample_validateAgainstSchema sample_translate
                       sample_checkHeader Errors_Get
                       (response "404" (Some (VStr "not found"))))
    = [INVALID_TYPE].
Proof. repeat split; reflexivity. Qed.

End LiveCorrectionWitnesses.
